(** * PAT: the Patent AI Technology chat session and its file obscurer

    A shallow embedding of [PAT Server/pat.py] and
    [PAT Server/encryption.py].

    Conventions of the embedding.
    - A Python [str] is a Rocq [string]; a character is a code point in
      0..255 (the Latin-1 part of Unicode), which is what [ascii] holds.
    - A Python [bytes] is a [list byte].
    - A Python value that the code stores without looking at its type
      (the chat id, the percentage) is a [pyval].
    - A method is a computation in the monad [M]: it reads and writes the
      session object and the world around it (database file, disk, remote
      service) and ends in a value, in a raised exception, or, for the
      polling loop only, still waiting when its fuel runs out. *)

From Stdlib Require Import ZArith NArith Ascii String Bool Lia.
From Stdlib.Strings Require Import Byte.
From stdpp Require Import base strings list gmap pretty.

Local Open Scope Z_scope.

(** ** Python values and exceptions *)

Inductive pyval :=
| PyNone
| PyInt (z : Z)
| PyStr (s : string).

Inductive exn :=
| ValueError
| IndexError
| AttributeError
| FileNotFoundError
| IntegrityError
| InvalidToken
| BinasciiError
| OverflowError
| APIError.

Inductive outcome (A : Type) :=
| Ok (a : A)
| Raise (e : exn)
| Waiting.

Arguments Ok {A} a.
Arguments Raise {A} e.
Arguments Waiting {A}.

(** [x is None] *)
Definition is_None (v : pyval) : bool :=
  match v with PyNone => true | _ => false end.

(** [str(v)], as an f-string field renders it. *)
Definition py_str (v : pyval) : string :=
  match v with
  | PyNone => "None"
  | PyInt z => pretty z
  | PyStr s => s
  end.

(** ** Text *)

Module Text.

(** Characters by code point. *)
Definition code (c : ascii) : N := N_of_ascii c.

(** [Py_UNICODE_ISSPACE] restricted to code points below 256: the
    characters [str.strip()] removes and the class [\s] of a [str]
    pattern matches. *)
Definition is_space (c : ascii) : bool :=
  let n := code c in
  ((9 <=? n) && (n <=? 13) || (28 <=? n) && (n <=? 32)
   || (n =? 133) || (n =? 160))%N.

(** [Py_ISSPACE]: the C locale's white space, which [int()] skips. *)
Definition is_c_space (c : ascii) : bool :=
  let n := code c in
  ((9 <=? n) && (n <=? 13) || (n =? 32))%N.

Definition is_digit (c : ascii) : bool :=
  let n := code c in ((48 <=? n) && (n <=? 57))%N.

Definition digit_value (c : ascii) : Z := Z.of_N (code c) - 48.

Fixpoint first (n : nat) (s : string) : string :=
  match n, s with
  | S k, String c s' => String c (first k s')
  | _, _ => ""
  end.

Fixpoint skip (n : nat) (s : string) : string :=
  match n, s with
  | S k, String _ s' => skip k s'
  | _, _ => s
  end.

(** [s.lstrip()], [s.rstrip()], [s.strip()] for a class of characters. *)
Fixpoint lstrip_of (ws : ascii -> bool) (s : string) : string :=
  match s with
  | String c s' => if ws c then lstrip_of ws s' else s
  | EmptyString => ""
  end.

Fixpoint rstrip_of (ws : ascii -> bool) (s : string) : string :=
  match s with
  | String c s' =>
      match rstrip_of ws s' with
      | EmptyString => if ws c then "" else String c ""
      | r => String c r
      end
  | EmptyString => ""
  end.

Definition strip (s : string) : string :=
  rstrip_of is_space (lstrip_of is_space s).

(** Every character of [s] is in the class. *)
Fixpoint all (f : ascii -> bool) (s : string) : bool :=
  match s with
  | String c s' => f c && all f s'
  | EmptyString => true
  end.

(** The first character of [s], if any, is outside the class. *)
Definition stops (f : ascii -> bool) (s : string) : bool :=
  match s with
  | String c _ => negb (f c)
  | EmptyString => true
  end.

(** [c * n] *)
Fixpoint times (n : nat) (c : ascii) : string :=
  match n with
  | S k => String c (times k c)
  | O => ""
  end.

(** [m in s] *)
Fixpoint contains (m s : string) : bool :=
  String.prefix m s ||
  match s with
  | String _ s' => contains m s'
  | EmptyString => false
  end.

End Text.

(** ** [int(s)] for a string argument

    [int] skips the C locale's white space at both ends, reads an optional
    sign and then decimal digits, where single underscores may separate
    digits. It raises [ValueError] (here [None]) on anything else, and on
    more digits than the interpreter's limit for integer strings.

    The program only calls [int] on the result of [strip()], which has no
    white space of any kind at its ends; the other white space of Unicode,
    which [int] would also skip there, is therefore left out. *)

Module PyInt.
Import Text.

(** [sys.get_int_max_str_digits()], at its default. *)
Definition int_max_str_digits : nat := 4300.

(** The scan of digits and underscores. [prev_us] tells whether the
    previous character was an underscore. The result is the value read,
    the number of digits and the text left, or [None] for a doubled or
    trailing underscore. *)
Fixpoint scan_digits (prev_us : bool) (acc : Z) (digits : nat) (s : string)
  : option (Z * nat * string) :=
  match s with
  | String c s' =>
      if is_digit c then
        scan_digits false (acc * 10 + digit_value c) (S digits) s'
      else if Ascii.eqb c "_" then
        if prev_us then None else scan_digits true acc digits s'
      else if prev_us then None else Some (acc, digits, s)
  | EmptyString => if prev_us then None else Some (acc, digits, s)
  end.

(** The value of a string of digits, read from the left. *)
Fixpoint horner (acc : Z) (s : string) : Z :=
  match s with
  | String c s' => horner (acc * 10 + digit_value c) s'
  | EmptyString => acc
  end.

Definition read_sign (s : string) : bool * string :=
  match s with
  | String c s' =>
      if Ascii.eqb c "-" then (true, s')
      else if Ascii.eqb c "+" then (false, s')
      else (false, s)
  | EmptyString => (false, s)
  end.

Definition int (s : string) : option Z :=
  let '(negative, body) := read_sign (lstrip_of is_c_space s) in
  if String.prefix "_" body then None else
  match scan_digits false 0 0 body with
  | Some (v, digits, rest) =>
      if (digits =? 0)%nat then None
      else if (int_max_str_digits <? digits)%nat then None
      else
        match lstrip_of is_c_space rest with
        | EmptyString => Some (if negative then - v else v)
        | _ => None
        end
  | None => None
  end.

End PyInt.

(** ** Regular expressions

    The patterns of the program are sequences of single-character items,
    each repeated between a lower and an upper bound and possibly wrapped
    in the (only) capturing group. Matching is the backtracking search of
    Python's [re]: an item first takes as many characters as it can and
    gives them back one at a time while the rest of the pattern fails. *)

Module Re.
Import Text.

Record item := Item {
  accepts : ascii -> bool;
  at_least : nat;
  at_most : option nat;
  captures : bool
}.

Definition pattern := list item.

Definition one (f : ascii -> bool) : item := Item f 1 (Some 1%nat) false.
Definition star (f : ascii -> bool) : item := Item f 0 None false.
Definition plus (f : ascii -> bool) : item := Item f 1 None false.
Definition opt (f : ascii -> bool) : item := Item f 0 (Some 1%nat) false.
Definition group (i : item) : item :=
  Item (accepts i) (at_least i) (at_most i) true.

Definition is_char (c : ascii) : ascii -> bool := Ascii.eqb c.
Definition not_char (c : ascii) : ascii -> bool := fun x => negb (Ascii.eqb c x).

Fixpoint literal (s : string) : pattern :=
  match s with
  | String c s' => one (is_char c) :: literal s'
  | EmptyString => []
  end.

(** How many leading characters of [s] the class accepts, up to [limit]. *)
Fixpoint run (f : ascii -> bool) (limit : option nat) (s : string) : nat :=
  match limit with
  | Some O => O
  | _ =>
      match s with
      | String c s' =>
          if f c then S (run f (pred <$> limit) s') else O
      | EmptyString => O
      end
  end.

(** Try [k], [k-1], ... down to [low] characters for the current item. *)
Fixpoint back_off {R} (try : nat -> option R) (low k : nat) : option R :=
  match try k with
  | Some r => Some r
  | None =>
      match k with
      | S k' => if (low <=? k')%nat then back_off try low k' else None
      | O => None
      end
  end.

(** A match at the start of [s]: the text of group 1, when the group
    took part, and the number of characters matched. *)
Fixpoint match_here (p : pattern) (s : string) : option (option string * nat) :=
  match p with
  | [] => Some (None, O)
  | i :: p' =>
      let longest := run (accepts i) (at_most i) s in
      if (longest <? at_least i)%nat then None
      else
        back_off
          (fun k =>
             match match_here p' (skip k s) with
             | Some (g, n) =>
                 Some (if captures i then Some (first k s) else g, (k + n)%nat)
             | None => None
             end)
          (at_least i) longest
  end.

(** [re.search(p, s)]: the leftmost match; start, group 1, length. *)
Fixpoint search_from (p : pattern) (start : nat) (s : string)
  : option (nat * option string * nat) :=
  match match_here p s with
  | Some (g, n) => Some (start, g, n)
  | None =>
      match s with
      | String _ s' => search_from p (S start) s'
      | EmptyString => None
      end
  end.

Definition search (p : pattern) (s : string) := search_from p O s.

(** [re.sub(p, '', s)]: every match, found from left to right in what
    follows the previous one, is cut out. [pending] counts the characters
    of the current match still to drop. *)
Fixpoint cut_from (p : pattern) (pending : nat) (s : string) : string :=
  match s with
  | String c s' =>
      match pending with
      | S k => cut_from p k s'
      | O =>
          match match_here p s with
          | Some (_, S k) => cut_from p k s'
          | _ => String c (cut_from p O s')
          end
      end
  | EmptyString => ""
  end.

Definition sub_empty (p : pattern) (s : string) : string := cut_from p O s.

(** A match found [k] characters further on. *)
Definition shift (k : nat) (m : option (option string * nat))
  : option (option string * nat) :=
  match m with
  | Some (g, n) => Some (g, (k + n)%nat)
  | None => None
  end.

(** No match starts inside [pre] when [s] follows it. *)
Fixpoint quiet (p : pattern) (pre s : string) : Prop :=
  match pre with
  | String _ pre' => match_here p (pre +:+ s) = None /\ quiet p pre' s
  | EmptyString => True
  end.

End Re.

(** ** The response extractor *)

Definition marker : string := "3. Context Similarity Percentage:".

(** The class [[\s#*]]. *)
Definition filler (c : ascii) : bool :=
  Text.is_space c || Ascii.eqb c "#" || Ascii.eqb c "*".

(** [r'3\. Context Similarity Percentage:[\s#*]*\n*([^%]+)%?'] *)
Definition percentage_pattern : Re.pattern :=
  Re.literal marker ++
  [ Re.star filler;
    Re.star (Re.is_char "010");
    Re.group (Re.plus (Re.not_char "%"));
    Re.opt (Re.is_char "%") ].

Definition get_context_similarity_percentage (message : string)
  : outcome (string * option Z) :=
  match Re.search percentage_pattern message with
  | Some (_, Some g, _) =>
      match PyInt.int (Text.strip g) with
      | Some context_similarity_percentage =>
          let formatted_message := Re.sub_empty percentage_pattern message in
          Ok (Text.strip formatted_message, Some context_similarity_percentage)
      | None => Raise ValueError
      end
  | Some (_, None, _) => Raise AttributeError
  | None => Ok (Text.strip message, None)
  end.

(** ** Base64, as [base64.b64encode] and [base64.b64decode] compute it *)

Module Base64.

Definition byte_of (n : N) : byte :=
  default x00 (Byte.of_N (n mod 256)%N).

Definition pad : byte := "=".

Definition alphabet : list byte :=
  list_byte_of_string
    "ABCDEFGHIJKLMNOPQRSTUVWXYZabcdefghijklmnopqrstuvwxyz0123456789+/".

(** [table_b2a_base64] *)
Definition table_b2a (n : N) : byte := nth (N.to_nat n) alphabet pad.

(** [table_a2b_base64]; [None] where the table holds no digit. *)
Definition table_a2b (c : byte) : option N :=
  let n := Byte.to_N c in
  if ((65 <=? n) && (n <=? 90))%N then Some (n - 65)%N
  else if ((97 <=? n) && (n <=? 122))%N then Some (n - 71)%N
  else if ((48 <=? n) && (n <=? 57))%N then Some (n + 4)%N
  else if (n =? 43)%N then Some 62%N
  else if (n =? 47)%N then Some 63%N
  else None.

(** The six-bit digits of a group of three bytes [a], [b], [c]. *)
Definition digit1 (a : byte) : N := N.shiftr (Byte.to_N a) 2.
Definition digit2 (a b : byte) : N :=
  N.lor (N.shiftl (N.land (Byte.to_N a) 3) 4) (N.shiftr (Byte.to_N b) 4).
Definition digit3 (b c : byte) : N :=
  N.lor (N.shiftl (N.land (Byte.to_N b) 15) 2) (N.shiftr (Byte.to_N c) 6).
Definition digit4 (c : byte) : N := N.land (Byte.to_N c) 63.

(** The last digit when one byte, or two bytes, are left over. *)
Definition last_of_one (a : byte) : N := N.shiftl (N.land (Byte.to_N a) 3) 4.
Definition last_of_two (b : byte) : N := N.shiftl (N.land (Byte.to_N b) 15) 2.

(** Three bytes make four digits; one or two bytes left over make two or
    three digits and are padded to four characters. *)
Fixpoint b64encode (s : list byte) : list byte :=
  match s with
  | a :: b :: c :: s' =>
      table_b2a (digit1 a) :: table_b2a (digit2 a b)
      :: table_b2a (digit3 b c) :: table_b2a (digit4 c) :: b64encode s'
  | [a; b] =>
      [table_b2a (digit1 a); table_b2a (digit2 a b); table_b2a (last_of_two b); pad]
  | [a] => [table_b2a (digit1 a); table_b2a (last_of_one a); pad; pad]
  | [] => []
  end.

(** The decoder's loop, not in strict mode: characters outside the
    alphabet are skipped, a pad sequence that completes a quad ends the
    input, and input that stops inside a quad is an error ([None]).
    [quad_pos] is the position in the current quad, [leftchar] the bits
    carried over, [pads] the pad characters seen in a row. *)
Fixpoint a2b_loop (quad_pos : nat) (leftchar : N) (pads : nat) (s : list byte)
  : option (list byte) :=
  match s with
  | this_ch :: s' =>
      if Byte.eqb this_ch pad then
        if (2 <=? quad_pos)%nat then
          if (4 <=? quad_pos + S pads)%nat then Some []
          else a2b_loop quad_pos leftchar (S pads) s'
        else a2b_loop quad_pos leftchar pads s'
      else
        match table_a2b this_ch with
        | None => a2b_loop quad_pos leftchar pads s'
        | Some v =>
            match quad_pos with
            | 0%nat => a2b_loop 1 v 0 s'
            | 1%nat =>
                cons (byte_of (N.lor (N.shiftl leftchar 2) (N.shiftr v 4)))
                  <$> a2b_loop 2 (N.land v 15) 0 s'
            | 2%nat =>
                cons (byte_of (N.lor (N.shiftl leftchar 4) (N.shiftr v 2)))
                  <$> a2b_loop 3 (N.land v 3) 0 s'
            | _ =>
                cons (byte_of (N.lor (N.shiftl leftchar 6) v))
                  <$> a2b_loop 0 0 0 s'
            end
        end
  | [] => if (quad_pos =? 0)%nat then Some [] else None
  end.

Definition b64decode (s : list byte) : option (list byte) := a2b_loop 0 0 0 s.

(** A check run on each of the 256 bytes. *)
Definition every_byte (P : byte -> bool) : bool :=
  forallb (fun n => P (byte_of (N.of_nat n))) (seq 0 256).

End Base64.

(** ** The symmetric cipher

    [cipher = Fernet(cipher_key)] is the library's object for the key of
    the process. Encryption depends on the clock reading and on sixteen
    random bytes; decryption gives the plaintext back or rejects the
    token. The library's contract is the last field. *)

Class Fernet := {
  fernet_encrypt : N -> list byte -> list byte -> list byte;
  fernet_decrypt : list byte -> option (list byte);
  fernet_decrypt_encrypt :
    forall (current_time : N) (iv data : list byte),
      length iv = 16%nat ->
      fernet_decrypt (fernet_encrypt current_time iv data) = Some data
}.

(** ** The session object and the world around it *)

(** The fields of a [PAT] instance; [assistant] holds the id of the
    assistant object, once one was created. *)
Record PAT := mkPAT {
  chat_id : pyval;
  assistant : option string;
  patent_file_names : list string;
  patent_files : list string
}.

(** [PAT.__init__] *)
Definition PAT_init : PAT := mkPAT PyNone None [] [].

(** A row of [threads (chat_id TEXT, thread_id TEXT PRIMARY KEY)]; a
    [None] chat id is SQL's NULL. *)
Record row := mkRow {
  row_chat_id : option string;
  row_thread_id : string
}.

Record file_object := mkFile {
  file_id : string;
  filename : string
}.

Record run_object := mkRun {
  run_id : string;
  status : string
}.

(** What the remote service will answer: the file catalog, the ids it
    hands out next, the successive states of a run as [runs.create] and
    [runs.retrieve] report them ([None]: the call fails), and the text of
    the newest message at each listing. *)
Record Remote := mkRemote {
  catalog : list file_object;
  next_file_ids : list string;
  next_thread_ids : list string;
  run_reports : nat -> option run_object;
  reported : nat;
  next_replies : list string
}.

(** The calls made, in order. *)
Inductive event :=
| FilesList
| FilesCreate (path : string) (content : list byte)
| ThreadsCreate
| MessagesCreate (thread_id role content : string)
| AssistantsList
| RunsCreate (thread_id assistant_id : string)
| RunsRetrieve (thread_id run_id : string)
| MessagesList (thread_id : string)
| Sleep
| DecryptFile (path : string)
| EncryptFile (path : string).

(** The session object and its world: the rows of the table of threads in
    the order of insertion, the local files by path (two paths are two
    files), the remote service, the journal of calls, and what the clock,
    [os.urandom] and the random generator will give at each draw.

    Console output, the lock around the table (one thread of control) and
    the opening of the database connection are left out. *)
Record state := mkState {
  self : PAT;
  threads : list row;
  disk : gmap string (list byte);
  remote : Remote;
  journal : list event;
  clock : nat -> N;
  urandom : nat -> byte;
  randbelow : nat -> N;
  drawn : nat
}.

(** *** Field updates *)

Definition with_self (f : PAT -> PAT) (st : state) : state :=
  mkState (f (self st)) (threads st) (disk st) (remote st) (journal st)
          (clock st) (urandom st) (randbelow st) (drawn st).

Definition with_threads (f : list row -> list row) (st : state) : state :=
  mkState (self st) (f (threads st)) (disk st) (remote st) (journal st)
          (clock st) (urandom st) (randbelow st) (drawn st).

Definition with_disk (f : gmap string (list byte) -> gmap string (list byte))
    (st : state) : state :=
  mkState (self st) (threads st) (f (disk st)) (remote st) (journal st)
          (clock st) (urandom st) (randbelow st) (drawn st).

Definition with_remote (f : Remote -> Remote) (st : state) : state :=
  mkState (self st) (threads st) (disk st) (f (remote st)) (journal st)
          (clock st) (urandom st) (randbelow st) (drawn st).

Definition with_journal (f : list event -> list event) (st : state) : state :=
  mkState (self st) (threads st) (disk st) (remote st) (f (journal st))
          (clock st) (urandom st) (randbelow st) (drawn st).

Definition with_drawn (f : nat -> nat) (st : state) : state :=
  mkState (self st) (threads st) (disk st) (remote st) (journal st)
          (clock st) (urandom st) (randbelow st) (f (drawn st)).

Definition set_chat_id_field (v : pyval) (p : PAT) : PAT :=
  mkPAT v (assistant p) (patent_file_names p) (patent_files p).

Definition set_patent_file_names (l : list string) (p : PAT) : PAT :=
  mkPAT (chat_id p) (assistant p) l (patent_files p).

Definition set_patent_files_field (l : list string) (p : PAT) : PAT :=
  mkPAT (chat_id p) (assistant p) (patent_file_names p) l.

(** ** The monad of methods *)

Definition M (A : Type) : Type := state -> outcome A * state.

Definition ret {A} (a : A) : M A := fun st => (Ok a, st).

Definition bind {A B} (m : M A) (k : A -> M B) : M B :=
  fun st =>
    match m st with
    | (Ok a, st') => k a st'
    | (Raise e, st') => (Raise e, st')
    | (Waiting, st') => (Waiting, st')
    end.

Definition raise {A} (e : exn) : M A := fun st => (Raise e, st).

Definition still_waiting {A} : M A := fun st => (Waiting, st).

Definition gets {A} (f : state -> A) : M A := fun st => (Ok (f st), st).

Definition modify (f : state -> state) : M unit := fun st => (Ok tt, f st).

Notation "x <- m ;; k" := (bind m (fun x => k))
  (at level 100, m at next level, right associativity).
Notation "m ;;; k" := (bind m (fun _ => k))
  (at level 100, right associativity).

Definition record (e : event) : M unit :=
  modify (with_journal (fun j => j ++ [e])).

Fixpoint for_each {A} (l : list A) (body : A -> M unit) : M unit :=
  match l with
  | x :: l' => body x ;;; for_each l' body
  | [] => ret tt
  end.

(** ** The machine around the program *)

(** [open(path, 'rb').read()] *)
Definition read_file (path : string) : M (list byte) :=
  fun st =>
    match disk st !! path with
    | Some data => (Ok data, st)
    | None => (Raise FileNotFoundError, st)
    end.

(** [open(path, 'wb').write(data)] *)
Definition write_file (path : string) (data : list byte) : M unit :=
  modify (with_disk (fun d => <[path := data]> d)).

(** [int(time.time())] *)
Definition time_now : M N :=
  fun st => (Ok (clock st (drawn st)), with_drawn S st).

(** [os.urandom(n)] *)
Definition os_urandom (n : nat) : M (list byte) :=
  fun st => (Ok (urandom st <$> seq (drawn st) n), with_drawn (fun k => (k + n)%nat) st).

(** [random.randint(a, b)]: [a] plus a draw below [b - a + 1]. *)
Definition random_randint (a b : Z) : M Z :=
  fun st =>
    (Ok (a + Z.of_N (randbelow st (drawn st)) mod (b - a + 1)),
     with_drawn S st).

(** [os.path.basename], for paths with [/] as separator. *)
Fixpoint basename (path : string) : string :=
  match path with
  | String _ rest => if Text.contains "/" path then basename rest else path
  | EmptyString => ""
  end.

(** *** The remote service *)

Definition files_list : M (list file_object) :=
  record FilesList ;;; gets (fun st => catalog (remote st)).

Definition take_file_id (r : Remote) : option (string * Remote) :=
  match next_file_ids r with
  | i :: rest =>
      Some (i, mkRemote (catalog r) rest (next_thread_ids r)
                        (run_reports r) (reported r) (next_replies r))
  | [] => None
  end.

Definition add_to_catalog (f : file_object) (r : Remote) : Remote :=
  mkRemote (catalog r ++ [f]) (next_file_ids r) (next_thread_ids r)
           (run_reports r) (reported r) (next_replies r).

(** [client.files.create(file=open(path, "rb"), purpose='assistants')] *)
Definition files_create (path : string) : M string :=
  content <- read_file path ;;
  record (FilesCreate path content) ;;;
  fun st =>
    match take_file_id (remote st) with
    | Some (i, r) =>
        (Ok i, with_remote (fun _ => add_to_catalog (mkFile i (basename path)) r) st)
    | None => (Raise APIError, st)
    end.

Definition take_thread_id (r : Remote) : option (string * Remote) :=
  match next_thread_ids r with
  | i :: rest =>
      Some (i, mkRemote (catalog r) (next_file_ids r) rest
                        (run_reports r) (reported r) (next_replies r))
  | [] => None
  end.

(** [client.beta.threads.create().id] *)
Definition threads_create : M string :=
  record ThreadsCreate ;;;
  fun st =>
    match take_thread_id (remote st) with
    | Some (i, r) => (Ok i, with_remote (fun _ => r) st)
    | None => (Raise APIError, st)
    end.

(** [client.beta.threads.messages.create(thread_id, role, content)] *)
Definition messages_create (thread_id role content : string) : M unit :=
  record (MessagesCreate thread_id role content).

Definition next_report : M run_object :=
  fun st =>
    let r := remote st in
    let st' :=
      with_remote
        (fun _ => mkRemote (catalog r) (next_file_ids r) (next_thread_ids r)
                           (run_reports r) (S (reported r)) (next_replies r)) st in
    match run_reports r (reported r) with
    | Some run => (Ok run, st')
    | None => (Raise APIError, st')
    end.

(** [client.beta.threads.runs.create(thread_id, assistant_id)] *)
Definition runs_create (thread_id assistant_id : string) : M run_object :=
  record (RunsCreate thread_id assistant_id) ;;; next_report.

(** [client.beta.threads.runs.retrieve(thread_id, run_id)] *)
Definition runs_retrieve (thread_id run_id : string) : M run_object :=
  record (RunsRetrieve thread_id run_id) ;;; next_report.

(** [client.beta.threads.messages.list(thread_id).data[0].content[0].text.value] *)
Definition newest_message (thread_id : string) : M string :=
  record (MessagesList thread_id) ;;;
  fun st =>
    let r := remote st in
    match next_replies r with
    | text :: rest =>
        (Ok text,
         with_remote
           (fun _ => mkRemote (catalog r) (next_file_ids r) (next_thread_ids r)
                              (run_reports r) (reported r) rest) st)
    | [] => (Raise APIError, st)
    end.

(** *** The table of threads *)

(** The value a Python object is bound to in a statement: [None] is NULL,
    an integer must fit 64 bits, and the TEXT column turns it to text. *)
Definition bind_text (v : pyval) : outcome (option string) :=
  match v with
  | PyNone => Ok None
  | PyInt z =>
      if (- 2 ^ 63 <=? z) && (z <? 2 ^ 63) then Ok (Some (pretty z))
      else Raise OverflowError
  | PyStr s => Ok (Some s)
  end.

(** [column = ?]: never true of NULL. *)
Definition sql_eq (column parameter : option string) : bool :=
  match column, parameter with
  | Some a, Some b => String.eqb a b
  | _, _ => false
  end.

(** [SELECT thread_id FROM threads WHERE chat_id = ?], then [fetchone()]. *)
Definition select_thread_id (parameter : option string) : M (option string) :=
  gets (fun st =>
          row_thread_id <$> find (fun r => sql_eq (row_chat_id r) parameter) (threads st)).

(** [INSERT INTO threads (chat_id, thread_id) VALUES (?, ?)] and the
    commit; [thread_id] is the primary key. *)
Definition insert_thread (c : option string) (thread_id : string) : M unit :=
  fun st =>
    if existsb (fun r => String.eqb (row_thread_id r) thread_id) (threads st)
    then (Raise IntegrityError, st)
    else (Ok tt, with_threads (fun t => t ++ [mkRow c thread_id]) st).

Definition lift {A} (o : outcome A) : M A := fun st => (o, st).

(** ** [encryption.py] *)

Section Obscurer.

Context {cipher : Fernet}.

(** [cipher.encrypt(data)]: the token for the current time and a fresh
    initialisation vector. *)
Definition cipher_encrypt (data : list byte) : M (list byte) :=
  current_time <- time_now ;;
  iv <- os_urandom 16 ;;
  ret (fernet_encrypt current_time iv data).

(** [cipher.decrypt(token)] *)
Definition cipher_decrypt (token : list byte) : M (list byte) :=
  match fernet_decrypt token with
  | Some data => ret data
  | None => raise InvalidToken
  end.

Definition encrypt_file (file_path : string) : M unit :=
  record (EncryptFile file_path) ;;;
  plaintext <- read_file file_path ;;
  let plaintext_encoded := Base64.b64encode plaintext in
  encrypted_text <- cipher_encrypt plaintext_encoded ;;
  write_file file_path encrypted_text.

Definition decrypt_file (file_path : string) : M unit :=
  record (DecryptFile file_path) ;;;
  encrypted_text <- read_file file_path ;;
  decrypted_text <- cipher_decrypt encrypted_text ;;
  match Base64.b64decode decrypted_text with
  | Some decrypted_text_decoded => write_file file_path decrypted_text_decoded
  | None => raise BinasciiError
  end.

(** ** [pat.py]: the session manager *)

Definition append_patent_file (i : string) : M unit :=
  modify (with_self (fun p => set_patent_files_field (patent_files p ++ [i]) p)).

(** The body of the loop of [upload_files] for one path. *)
Definition upload_one (existing_files : list file_object)
    (patent_file_path : string) : M unit :=
  let existing_file :=
    find (fun file => String.eqb (filename file) (basename patent_file_path))
         existing_files in
  match existing_file with
  | Some file => append_patent_file (file_id file)
  | None =>
      decrypt_file patent_file_path ;;;
      i <- files_create patent_file_path ;;
      append_patent_file i ;;;
      encrypt_file patent_file_path
  end.

Definition upload_files : M unit :=
  existing_files <- files_list ;;
  names <- gets (fun st => patent_file_names (self st)) ;;
  for_each names (upload_one existing_files).

(** [upload_files] up to, and not including, the pass of its loop for the
    [i]-th tracked path: it returns when the loop arrives at that path. *)
Definition upload_files_upto (i : nat) : M unit :=
  existing_files <- files_list ;;
  names <- gets (fun st => patent_file_names (self st)) ;;
  for_each (take i names) (upload_one existing_files).

End Obscurer.

Definition check_if_thread_exist (chat_id_arg : pyval) : M string :=
  parameter <- lift (bind_text chat_id_arg) ;;
  result <- select_thread_id parameter ;;
  match result with
  | Some thread_id => ret thread_id
  | None =>
      thread_id <- threads_create ;;
      own <- gets (fun st => chat_id (self st)) ;;
      stored <- lift (bind_text own) ;;
      insert_thread stored thread_id ;;;
      ret thread_id
  end.

Definition sentinel : string := "Started Conversation from Compare with percentage".

Definition nl : string := String "010" "".

(** The f-string of [generate_response], for the texts of its three fields. *)
Definition compare_prompt (file0 file1 percentage : string) : string :=
  file0 +:+ " is the patent provided, and " +:+ file1 +:+ " is the patent "
  +:+ "it was compared to. "
  +:+ "The comparison utilized a TF-IDF (Term Frequency-Inverse Document Frequency) approach, followed by the calculation "
  +:+ "of Cosine similarity between the TF-IDF vectors of the two patents. The resulting cosine similarity indicates a "
  +:+ percentage +:+ "% textual similarity between the patents." +:+ nl +:+ nl
  +:+ "Your response should be clear, concise, and follow this format without using asterisks or hashtags for special "
  +:+ "formatting:" +:+ nl +:+ nl
  +:+ "1. Pat's Thoughts on Text Similarity: Provide insights into why the patents exhibit a " +:+ percentage +:+ "% similarity in "
  +:+ "text. "
  +:+ "Focus on structural similarities, common technical terms, or linguistic patterns." +:+ nl +:+ nl
  +:+ "2. Pat's Thoughts on Context Similarity: Objectively analyze the extent of similarity in context between the patents. "
  +:+ "The context similarity percentage reflects the degree of overlap in ideas, concepts, or technical approaches." +:+ nl +:+ nl
  +:+ "3. Context Similarity Percentage: (Please provide a context similarity percentage from 0% to 100%)" +:+ nl +:+ nl
  +:+ "Note: The context similarity percentage should accurately reflect the observed similarities in context. "
  +:+ "A percentage closer to 0% indicates minimal context similarities, while a higher percentage implies significant overlap. "
  +:+ "You're not required to explain the percentage separately; it should reflect your analysis directly.".

(** [l[i]] *)
Definition index (l : list string) (i : nat) : M string :=
  match l !! i with
  | Some x => ret x
  | None => raise IndexError
  end.

(** The loop of [run_assistant]; each unit of [fuel] pays for one round. *)
Fixpoint wait_until_completed (fuel : nat) (thread_id : string) (run : run_object)
  : M run_object :=
  if negb (String.eqb (status run) "completed") then
    match fuel with
    | S fuel' =>
        record Sleep ;;;
        run' <- runs_retrieve thread_id (run_id run) ;;
        wait_until_completed fuel' thread_id run'
    | O => still_waiting
    end
  else ret run.

Definition run_assistant (fuel : nat) (thread_id : string) : M string :=
  record AssistantsList ;;;
  a <- gets (fun st => assistant (self st)) ;;
  match a with
  | None => raise AttributeError
  | Some assistant_id =>
      run <- runs_create thread_id assistant_id ;;
      wait_until_completed fuel thread_id run ;;;
      newest_message thread_id
  end.

Definition generate_response (fuel : nat) (message_body : string) (percentage : pyval)
  : M (string * option Z) :=
  own <- gets (fun st => chat_id (self st)) ;;
  thread_id <- check_if_thread_exist own ;;
  message_body' <-
    (if String.eqb message_body sentinel && negb (is_None percentage) then
       files <- gets (fun st => patent_files (self st)) ;;
       file0 <- index files 0 ;;
       file1 <- index files 1 ;;
       ret (compare_prompt file0 file1 (py_str percentage))
     else ret message_body) ;;
  messages_create thread_id "user" message_body' ;;;
  new_message <- run_assistant fuel thread_id ;;
  if negb (is_None percentage) then
    lift (get_context_similarity_percentage new_message)
  else ret (new_message, None).

Definition set_chat_id : M unit :=
  own <- gets (fun st => chat_id (self st)) ;;
  if is_None own then
    n <- random_randint 1000 9999 ;;
    modify (with_self (set_chat_id_field (PyInt n)))
  else ret tt.

Definition set_patent_files (patent_files_arg : list (list string))
    (user_patent_file : string) : M unit :=
  modify (with_self (fun p =>
    set_patent_file_names (patent_file_names p ++ [user_patent_file]) p)) ;;;
  for_each patent_files_arg (fun patent =>
    name <- index patent 0 ;;
    modify (with_self (fun p =>
      set_patent_file_names (patent_file_names p ++ [name]) p))).

Definition get_patent_file_names : M (list string) :=
  gets (fun st => patent_file_names (self st)).

Definition reset_pat_chat : M unit :=
  modify (with_self (fun p => mkPAT PyNone (assistant p) [] [])).

(** ** [create_assistant]

    The assistants of the remote service are kept apart from the rest of
    the world: what the listing returns, whether the deletion goes through,
    and the id of the assistant that the creation returns ([None]: the call
    fails). The calls made are returned with the outcome. *)

Record assistant_object := mkAssistant {
  assistant_id : string;
  assistant_name : string
}.

Record assistants_service := mkAssistants {
  listed : option (list assistant_object);
  deletion_works : bool;
  created : option string
}.

Inductive assistant_call :=
| ListAssistants
| DeleteAssistant (id : string)
| CreateAssistant (name instructions model : string) (tools file_ids : list string).

Definition pat_instructions : string :=
  "You are Pat, a chat bot from Patent AI Technology (PAT). "
  +:+ "You are an expert in patents with a specialty in orthopedic patents. "
  +:+ "Refer to the patents provided and any information they user has provided "
  +:+ "to answer any questions that the user has. ".

Definition set_assistant_field (a : option string) (p : PAT) : PAT :=
  mkPAT (chat_id p) a (patent_file_names p) (patent_files p).

(** The loop over the listing: the id of the first assistant named "PAT". *)
Definition first_pat (assistants : list assistant_object) : option string :=
  assistant_id <$> find (fun a => String.eqb (assistant_name a) "PAT") assistants.

(** [if pat_assistant_id:] is false for [None] and for the empty string. *)
Definition truthy (o : option string) : bool :=
  match o with
  | Some EmptyString | None => false
  | Some _ => true
  end.

Definition create_call (p : PAT) : assistant_call :=
  CreateAssistant "PAT" pat_instructions "gpt-3.5-turbo-0125" ["retrieval"]
                  (patent_files p).

Definition create_assistant (svc : assistants_service) (p : PAT)
  : outcome unit * PAT * list assistant_call :=
  match listed svc with
  | None => (Raise APIError, p, [ListAssistants])
  | Some assistants =>
      let pat_assistant_id := first_pat assistants in
      let deletion :=
        if truthy pat_assistant_id
        then [DeleteAssistant (default "" pat_assistant_id)]
        else [] in
      if truthy pat_assistant_id && negb (deletion_works svc)
      then (Raise APIError, p, ListAssistants :: deletion)
      else
        match created svc with
        | Some new_id =>
            (Ok tt, set_assistant_field (Some new_id) p,
             ListAssistants :: deletion ++ [create_call p])
        | None => (Raise APIError, p, ListAssistants :: deletion ++ [create_call p])
        end
  end.

(** The run held by the loop completes after [m] more reports: it is
    completed now ([m = 0]), or it is not and the next report is a run that
    completes after [m - 1] more. *)
Fixpoint completes_after (m : nat) (reports : nat -> option run_object)
    (pos : nat) (run : run_object) : Prop :=
  match m with
  | O => status run = "completed"
  | S m' =>
      status run <> "completed" /\
      exists run', reports pos = Some run' /\ completes_after m' reports (S pos) run'
  end.

(** The runs that the loop of [run_assistant] holds at the start of its
    first [m] rounds: [run], then the reports from [pos] on. *)
Fixpoint polled (m : nat) (reports : nat -> option run_object)
    (pos : nat) (run : run_object) : list run_object :=
  match m with
  | O => []
  | S m' =>
      run :: match reports pos with
             | Some run' => polled m' reports (S pos) run'
             | None => []
             end
  end.

(** What a round of the loop leaves in the journal, for each run held. *)
Definition rounds_for (thread_id : string) (runs : list run_object) : list event :=
  flat_map (fun run => [Sleep; RunsRetrieve thread_id (run_id run)]) runs.

(** [patent[0]] for each tuple, up to the first tuple that is empty. *)
Fixpoint heads_until_empty (patents : list (list string)) : list string :=
  match patents with
  | (name :: _) :: rest => name :: heads_until_empty rest
  | _ => []
  end.

(** ** Properties of the world that the statements below speak of *)

(** From the next report on, the service reports a run that is not
    completed, whatever else its status says. *)
Definition never_completed (r : Remote) : Prop :=
  forall k, (reported r <= k)%nat ->
    exists run, run_reports r k = Some run /\ status run <> "completed".

Definition is_message_create (e : event) : bool :=
  match e with MessagesCreate _ _ _ => true | _ => false end.

(** Events that append no message to a thread. *)
Definition silent (events : list event) : Prop :=
  Forall (fun e => is_message_create e = false) events.

(** The path an event touches on the local disk, if any. *)
Definition event_path (e : event) : option string :=
  match e with
  | FilesCreate path _ | DecryptFile path | EncryptFile path => Some path
  | _ => None
  end.

(** ** Example worlds *)

(** A service that answers nothing yet, with the given ids in stock and a
    run that reports the given statuses in turn and the last one for ever. *)
Definition service (files : list file_object) (file_ids thread_ids : list string)
    (statuses : list string) (last : string) (replies : list string) : Remote :=
  mkRemote files file_ids thread_ids
           (fun k => Some (mkRun "run_1" (nth k statuses last))) 0 replies.

(** A machine with no thread recorded and an empty journal. *)
Definition machine (p : PAT) (files : gmap string (list byte)) (r : Remote)
    (dice : N) : state :=
  mkState p [] files r [] (fun _ => 1700000000%N) (fun _ => "*"%byte)
          (fun _ => dice) 0.

(** A stand-in for the cipher in examples: the token is the vector
    followed by the data. *)
Definition stand_in_encrypt (current_time : N) (iv data : list byte) : list byte :=
  iv ++ data.

Definition stand_in_decrypt (token : list byte) : option (list byte) :=
  if (length token <? 16)%nat then None else Some (drop 16 token).

(** What a computation on the file [q] may change: the file itself, the
    journal by events about [q], and anything but the session object and
    the other files. *)
Definition local_to (q : string) (st st' : state) : Prop :=
  self st' = self st /\
  (forall p, p <> q -> disk st' !! p = disk st !! p) /\
  exists later,
    journal st' = journal st ++ later /\
    Forall (fun e => event_path e = Some q) later.

(** The file at [path] is as before, and no event since is about it. *)
Definition spares (path : string) (st st' : state) : Prop :=
  disk st' !! path = disk st !! path /\
  exists later,
    journal st' = journal st ++ later /\
    Forall (fun e => event_path e <> Some path) later.

(** * Properties *)

(** ** Facts about text *)

Module TextFacts.
Import Text.

Lemma app_cons (c : ascii) (a b : string) :
  String c a +:+ b = String c (a +:+ b).
Proof. reflexivity. Qed.

Lemma app_nil_l (b : string) : "" +:+ b = b.
Proof. reflexivity. Qed.

Lemma app_assoc (a b c : string) : (a +:+ b) +:+ c = a +:+ (b +:+ c).
Proof.
  induction a as [|x a IH]; [reflexivity|].
  rewrite !app_cons. f_equal. exact IH.
Qed.

Lemma app_nil_r (a : string) : a +:+ "" = a.
Proof.
  induction a as [|x a IH]; [reflexivity|].
  rewrite app_cons. f_equal. exact IH.
Qed.

Lemma length_app (a b : string) :
  String.length (a +:+ b) = (String.length a + String.length b)%nat.
Proof.
  induction a as [|x a IH]; [reflexivity|].
  rewrite app_cons. simpl. f_equal. exact IH.
Qed.

Lemma skip_0 (s : string) : skip 0 s = s.
Proof. now destruct s. Qed.

Lemma skip_app (a b : string) : skip (String.length a) (a +:+ b) = b.
Proof.
  induction a as [|x a IH]; [apply skip_0|].
  rewrite app_cons. exact IH.
Qed.

Lemma first_app (a b : string) : first (String.length a) (a +:+ b) = a.
Proof.
  induction a as [|x a IH]; [now destruct b|].
  rewrite app_cons. simpl. f_equal. exact IH.
Qed.

Lemma skip_skip (j k : nat) (s : string) : skip j (skip k s) = skip (k + j) s.
Proof.
  revert s; induction k as [|k IH]; intros s; simpl.
  - reflexivity.
  - destruct s as [|c s]; [now destruct j | apply IH].
Qed.

Lemma all_app f (a b : string) : all f (a +:+ b) = all f a && all f b.
Proof.
  induction a as [|x a IH]; [reflexivity|].
  rewrite app_cons. simpl. rewrite IH. now rewrite andb_assoc.
Qed.

Lemma prefix_app (m s : string) : String.prefix m (m +:+ s) = true.
Proof.
  induction m as [|x m IH]; [now destruct s|].
  rewrite app_cons. simpl.
  destruct (ascii_dec x x); [exact IH | congruence].
Qed.

Lemma prefix_split (m s : string) :
  String.prefix m s = true -> exists r, s = m +:+ r.
Proof.
  revert s; induction m as [|x m IH]; intros s H.
  - exists s. reflexivity.
  - destruct s as [|c s]; simpl in H; [discriminate|].
    destruct (ascii_dec x c) as [->|]; [|discriminate].
    destruct (IH s H) as [r ->]. exists r. reflexivity.
Qed.

(** A match of [m] at the start of [b +:+ x] lies in [b], or [b] is a
    proper start of [m] and the rest of [m] starts [x]. *)
Lemma prefix_over_app (m b x : string) :
  String.prefix m (b +:+ x) = true ->
  String.prefix m b = true \/
  ((String.length b < String.length m)%nat /\
   String.prefix (skip (String.length b) m) x = true).
Proof.
  revert b; induction m as [|c m IH]; intros b H.
  - left. now destruct b.
  - destruct b as [|d b].
    + right. split; [simpl; lia | exact H].
    + rewrite app_cons in H. simpl in H. simpl.
      destruct (ascii_dec c d); [|discriminate].
      destruct (IH b H) as [Hin | [Hlt Hrest]]; [left; exact Hin|].
      right. split; [lia | exact Hrest].
Qed.

(** Only the first [length a] characters matter to [prefix a]. *)
Lemma prefix_short (a m r : string) :
  (String.length a <= String.length m)%nat ->
  String.prefix a (m +:+ r) = String.prefix a m.
Proof.
  revert m; induction a as [|c a IH]; intros m H.
  - now destruct m, r.
  - destruct m as [|d m]; simpl in H; [lia|].
    rewrite app_cons. simpl.
    destruct (ascii_dec c d); [apply IH; lia | reflexivity].
Qed.

Lemma length_skip (k : nat) (s : string) :
  String.length (skip k s) = (String.length s - k)%nat.
Proof.
  revert s; induction k as [|k IH]; intros s; simpl.
  - destruct s; simpl; lia.
  - destruct s as [|c s]; simpl; [reflexivity | apply IH].
Qed.

Lemma contains_cons (m : string) (c : ascii) (s : string) :
  contains m (String c s) = String.prefix m (String c s) || contains m s.
Proof. reflexivity. Qed.

Lemma contains_prefix (m s : string) :
  String.prefix m s = true -> contains m s = true.
Proof.
  intros H. destruct s as [|c s].
  - change (contains m "") with (String.prefix m "" || false).
    now rewrite H.
  - rewrite contains_cons. now rewrite H.
Qed.

Lemma contains_here (m s : string) :
  contains m s = false -> String.prefix m s = false.
Proof.
  destruct s as [|c s]; simpl; intros H.
  - now rewrite orb_false_r in H.
  - now apply orb_false_iff in H.
Qed.

Lemma contains_later (m : string) (c : ascii) (s : string) :
  contains m (String c s) = false -> contains m s = false.
Proof.
  rewrite contains_cons. intros H. now apply orb_false_iff in H.
Qed.

Lemma contains_app_l (m a b : string) :
  contains m a = true -> contains m (a +:+ b) = true.
Proof.
  induction a as [|c a IH]; intros H.
  - simpl in H. rewrite orb_false_r in H.
    destruct m; [now destruct b | discriminate].
  - rewrite contains_cons in H. rewrite app_cons, contains_cons.
    apply orb_true_iff in H as [H | H].
    + apply prefix_split in H as [r Hr].
      rewrite <- app_cons, Hr, app_assoc, prefix_app. reflexivity.
    + rewrite (IH H). apply orb_true_r.
Qed.

End TextFacts.

(** ** Facts about matching *)

Module ReFacts.
Import Text TextFacts Re.

Lemma run_class f (a b : string) :
  all f a = true -> stops f b = true ->
  run f None (a +:+ b) = String.length a.
Proof.
  intros Ha Hb. induction a as [|c a IH].
  - rewrite app_nil_l. destruct b as [|d b]; [reflexivity|].
    simpl in *. now destruct (f d).
  - rewrite app_cons. simpl in *.
    apply andb_true_iff in Ha as [Hc Ha]. rewrite Hc. f_equal. now apply IH.
Qed.

Lemma run_stops f (b : string) : stops f b = true -> run f None b = 0%nat.
Proof. intros H. exact (run_class f "" b eq_refl H). Qed.

Lemma run_zero f (s : string) : run f (Some 0%nat) s = 0%nat.
Proof. now destruct s. Qed.

Lemma back_off_hit {R} (try : nat -> option R) (low k : nat) (r : R) :
  try k = Some r -> back_off try low k = Some r.
Proof. intros H. destruct k; simpl; now rewrite H. Qed.

Lemma shift_shift j k m : shift j (shift k m) = shift (j + k) m.
Proof. destruct m as [[g n]|]; simpl; [f_equal; f_equal; lia | reflexivity]. Qed.

Lemma shift_0 m : shift 0 m = m.
Proof. now destruct m as [[g n]|]. Qed.

Lemma match_here_one (c : ascii) (p : pattern) (s : string) :
  match_here (one (is_char c) :: p) s =
  match s with
  | String d s' => if Ascii.eqb c d then shift 1 (match_here p s') else None
  | EmptyString => None
  end.
Proof.
  destruct s as [|d s]; [reflexivity|].
  unfold is_char. simpl. unfold is_char.
  destruct (Ascii.eqb c d); simpl; [|reflexivity].
  rewrite run_zero. simpl.
  now destruct (match_here p s) as [[g n]|].
Qed.

Lemma match_here_literal (l : string) (p : pattern) (s : string) :
  match_here (literal l ++ p) s =
  if String.prefix l s
  then shift (String.length l) (match_here p (skip (String.length l) s))
  else None.
Proof.
  revert s; induction l as [|c l IH]; intros s.
  - cbn [literal app String.length]. rewrite skip_0, shift_0. now destruct s.
  - cbn [literal app]. rewrite match_here_one.
    destruct s as [|d s]; [reflexivity|].
    simpl String.prefix. simpl skip. simpl String.length.
    destruct (Ascii.eqb_spec c d) as [->|Hne].
    + destruct (ascii_dec d d); [|congruence].
      rewrite IH. destruct (String.prefix l s); [|reflexivity].
      now rewrite shift_shift.
    + destruct (ascii_dec c d); [congruence | reflexivity].
Qed.

Lemma match_here_cons (i : item) (p : pattern) (s : string) :
  match_here (i :: p) s =
  let longest := run (accepts i) (at_most i) s in
  if (longest <? at_least i)%nat then None
  else
    back_off
      (fun k =>
         match match_here p (skip k s) with
         | Some (g, n) =>
             Some (if captures i then Some (first k s) else g, (k + n)%nat)
         | None => None
         end)
      (at_least i) longest.
Proof. reflexivity. Qed.

Lemma search_from_quiet (p : pattern) (pre s : string) (n : nat) :
  quiet p pre s ->
  search_from p n (pre +:+ s) = search_from p (n + String.length pre) s.
Proof.
  revert n; induction pre as [|c pre IH]; intros n H.
  - rewrite app_nil_l. simpl. now rewrite Nat.add_0_r.
  - destruct H as [Hc H]. rewrite app_cons in *.
    simpl. rewrite Hc. rewrite (IH _ H). f_equal. simpl. lia.
Qed.

Lemma cut_from_quiet (p : pattern) (pre s : string) :
  quiet p pre s ->
  cut_from p 0 (pre +:+ s) = pre +:+ cut_from p 0 s.
Proof.
  induction pre as [|c pre IH]; intros H.
  - reflexivity.
  - destruct H as [Hc H]. rewrite !app_cons in *.
    simpl. rewrite Hc. f_equal. now apply IH.
Qed.

Lemma cut_from_pending (p : pattern) (k : nat) (s : string) :
  cut_from p k s = cut_from p 0 (skip k s).
Proof.
  revert k; induction s as [|c s IH]; intros k.
  - now destruct k.
  - destruct k as [|k]; [reflexivity|]. simpl. apply IH.
Qed.

Lemma cut_from_match (p : pattern) (s : string) g (n : nat) :
  match_here p s = Some (g, S n) ->
  cut_from p 0 s = cut_from p 0 (skip (S n) s).
Proof.
  intros H. destruct s as [|c s].
  - destruct p as [|i p]; simpl in H; [discriminate|].
    simpl. reflexivity.
  - simpl. rewrite H. apply cut_from_pending.
Qed.

Lemma search_from_hit (p : pattern) (s : string) (k : nat) g (n : nat) :
  match_here p s = Some (g, n) -> search_from p k s = Some (k, g, n).
Proof. intros H. destruct s; simpl; now rewrite H. Qed.

Lemma search_from_none (p : pattern) (s : string) (n : nat) :
  (forall k, match_here p (skip k s) = None) ->
  search_from p n s = None.
Proof.
  revert n; induction s as [|c s IH]; intros n H.
  - pose proof (H 0%nat) as H0. simpl in *. now rewrite H0.
  - pose proof (H 0%nat) as H0. simpl in *. rewrite H0.
    apply IH. intros k. exact (H (S k)).
Qed.

Lemma cut_from_none (p : pattern) (s : string) :
  (forall k, match_here p (skip k s) = None) ->
  cut_from p 0 s = s.
Proof.
  induction s as [|c s IH]; intros H; [reflexivity|].
  pose proof (H 0%nat) as H0. simpl in *. rewrite H0.
  f_equal. apply IH. intros k. exact (H (S k)).
Qed.

End ReFacts.

(** ** Facts about the extractor's pattern *)

Module ExtractorFacts.
Import Text TextFacts Re ReFacts.

Lemma stops_app f (g x : string) :
  g <> "" -> stops f (g +:+ x) = stops f g.
Proof. destruct g; [congruence | reflexivity]. Qed.

Lemma match_percent_sign (post : string) :
  match_here [opt (is_char "%")] (String "%" post) = Some (None, 1%nat).
Proof. simpl. rewrite run_zero. reflexivity. Qed.

Lemma match_group (g post : string) :
  g <> "" -> all (not_char "%") g = true ->
  match_here [group (plus (not_char "%")); opt (is_char "%")]
             (g +:+ String "%" post)
  = Some (Some g, (String.length g + 1)%nat).
Proof.
  intros Hg Hall.
  rewrite match_here_cons.
  cbn [group plus accepts at_least at_most captures].
  rewrite run_class by (exact Hall || reflexivity).
  destruct (Nat.ltb_spec (String.length g) 1) as [Hlt|_].
  { destruct g; [congruence | simpl in Hlt; lia]. }
  apply back_off_hit.
  now rewrite skip_app, first_app, match_percent_sign.
Qed.

Lemma filler_newline (c : ascii) : filler c = false -> is_char "010" c = false.
Proof.
  unfold is_char. destruct (Ascii.eqb_spec "010" c) as [<-|]; [|reflexivity].
  discriminate.
Qed.

(** What follows the marker: filler, then the captured value up to the
    percent sign. *)
Lemma match_value (ws g post : string) :
  all filler ws = true ->
  g <> "" -> stops filler g = true -> all (not_char "%") g = true ->
  match_here
    [ star filler; star (is_char "010");
      group (plus (not_char "%")); opt (is_char "%") ]
    (ws +:+ g +:+ String "%" post)
  = Some (Some g, (String.length ws + (String.length g + 1))%nat).
Proof.
  intros Hws Hg Hstop Hall.
  assert (Hnl : stops (is_char "010") (g +:+ String "%" post) = true).
  { destruct g as [|c g]; [congruence|]. rewrite app_cons.
    unfold stops in *. apply negb_true_iff, filler_newline.
    now apply negb_true_iff. }
  rewrite match_here_cons.
  cbn [star accepts at_least at_most captures].
  rewrite run_class by (rewrite ?stops_app; assumption).
  replace (String.length ws <? 0)%nat with false by (symmetry; apply Nat.ltb_ge; lia).
  apply back_off_hit. rewrite skip_app.
  rewrite match_here_cons.
  cbn [star accepts at_least at_most captures].
  rewrite (run_stops _ _ Hnl).
  cbn [Nat.ltb Nat.leb back_off]. rewrite skip_0.
  rewrite (match_group g post Hg Hall). reflexivity.
Qed.

Lemma marker_length : String.length marker = 33%nat.
Proof. reflexivity. Qed.

(** The marker does not overlap a shifted copy of itself. *)
Lemma marker_no_overlap (k : nat) :
  (1 <= k < 33)%nat -> String.prefix (skip k marker) marker = false.
Proof.
  intros Hk.
  assert (H : forallb (fun k => negb (String.prefix (skip k marker) marker))
                      (seq 1 32) = true) by (vm_compute; reflexivity).
  rewrite forallb_forall in H.
  apply negb_true_iff, H, in_seq. lia.
Qed.

Lemma match_needs_marker (s : string) :
  String.prefix marker s = false -> match_here percentage_pattern s = None.
Proof.
  intros H. unfold percentage_pattern. rewrite match_here_literal. now rewrite H.
Qed.

Lemma quiet_before_marker (pre rest : string) :
  contains marker pre = false ->
  quiet percentage_pattern pre (marker +:+ rest).
Proof.
  induction pre as [|c pre IH]; intros H; [exact I|].
  split; [|apply IH; now apply contains_later in H].
  apply match_needs_marker.
  destruct (String.prefix marker (String c pre +:+ marker +:+ rest)) eqn:E;
    [|reflexivity].
  apply prefix_over_app in E as [E | [Hlt E]].
  - apply contains_here in H. congruence.
  - rewrite prefix_short in E by (rewrite length_skip; lia).
    rewrite marker_no_overlap in E; [discriminate|].
    rewrite marker_length in Hlt. simpl in *. lia.
Qed.

Lemma no_marker_no_match (s : string) (k : nat) :
  contains marker s = false ->
  match_here percentage_pattern (skip k s) = None.
Proof.
  revert s; induction k as [|k IH]; intros s H.
  - rewrite skip_0. apply match_needs_marker. now apply contains_here.
  - destruct s as [|c s]; [reflexivity|].
    simpl skip. apply IH. now apply contains_later in H.
Qed.

End ExtractorFacts.

(** ** Facts about [int] and decimal numerals *)

Module PyIntFacts.
Import Text TextFacts PyInt.

Lemma horner_app (acc : Z) (a b : string) :
  horner acc (a +:+ b) = horner (horner acc a) b.
Proof.
  revert acc; induction a as [|c a IH]; intros acc; [reflexivity|].
  rewrite app_cons. simpl. apply IH.
Qed.

Lemma digit_classes (c : ascii) :
  is_digit c = true ->
  is_space c = false /\ is_c_space c = false /\ filler c = false /\
  Re.not_char "%" c = true /\
  Ascii.eqb c "-" = false /\ Ascii.eqb c "+" = false /\ Ascii.eqb c "_" = false.
Proof.
  destruct c as [[] [] [] [] [] [] [] []]; vm_compute; intros H;
    (discriminate H || (repeat split; reflexivity)).
Qed.

Lemma scan_digits_all (acc : Z) (d : nat) (s : string) :
  all is_digit s = true ->
  scan_digits false acc d s = Some (horner acc s, (d + String.length s)%nat, "").
Proof.
  revert acc d; induction s as [|c s IH]; intros acc d H; simpl in *.
  - now rewrite Nat.add_0_r.
  - apply andb_true_iff in H as [Hc H]. rewrite Hc, (IH _ _ H).
    do 3 f_equal. lia.
Qed.

Lemma lstrip_of_stops ws (s : string) :
  stops ws s = true -> lstrip_of ws s = s.
Proof.
  destruct s as [|c s]; [reflexivity|]. simpl.
  intros H. apply negb_true_iff in H. now rewrite H.
Qed.

Lemma rstrip_of_none ws (s : string) :
  all (fun c => negb (ws c)) s = true -> rstrip_of ws s = s.
Proof.
  induction s as [|c s IH]; [reflexivity|]. simpl.
  intros H. apply andb_true_iff in H as [Hc H]. rewrite (IH H).
  apply negb_true_iff in Hc. rewrite Hc. now destruct s.
Qed.

Lemma all_impl (f g : ascii -> bool) (s : string) :
  (forall c, f c = true -> g c = true) -> all f s = true -> all g s = true.
Proof.
  intros Hfg. induction s as [|c s IH]; [reflexivity|]. simpl.
  intros H. apply andb_true_iff in H as [Hc H].
  now rewrite (Hfg _ Hc), (IH H).
Qed.

Lemma digits_stop f (s : string) :
  (forall c, is_digit c = true -> f c = false) ->
  all is_digit s = true -> stops f s = true.
Proof.
  intros Hf. destruct s as [|c s]; [reflexivity|]. simpl.
  intros H. apply andb_true_iff in H as [Hc _]. now rewrite (Hf _ Hc).
Qed.

Lemma strip_digits (s : string) : all is_digit s = true -> strip s = s.
Proof.
  intros H. unfold strip.
  rewrite lstrip_of_stops
    by (apply digits_stop; [intros c Hc; apply (digit_classes c Hc) | exact H]).
  apply rstrip_of_none. revert H. apply all_impl.
  intros c Hc. destruct (digit_classes c Hc) as [-> _]. reflexivity.
Qed.

(** [int] of a string of digits. *)
Lemma int_digits (s : string) :
  s <> "" -> all is_digit s = true ->
  (String.length s <= int_max_str_digits)%nat ->
  int s = Some (horner 0 s).
Proof.
  intros Hs H Hlen. unfold int.
  rewrite lstrip_of_stops
    by (apply digits_stop; [intros c Hc; apply (digit_classes c Hc) | exact H]).
  destruct s as [|c s]; [congruence|].
  pose proof H as H'. simpl in H'. apply andb_true_iff in H' as [Hc _].
  destruct (digit_classes c Hc) as (_ & _ & _ & _ & Hm & Hp & Hu).
  unfold read_sign. rewrite Hm, Hp.
  assert (Hpre : String.prefix "_" (String c s) = false).
  { change (String.prefix "_" (String c s))
      with (if ascii_dec "_" c then String.prefix "" s else false).
    destruct (ascii_dec "_" c) as [<-|]; [discriminate Hu | reflexivity]. }
  rewrite Hpre, (scan_digits_all 0 0 _ H).
  cbn [Nat.add]. simpl String.length in *.
  cbn [Nat.eqb].
  destruct (Nat.ltb_spec int_max_str_digits (S (String.length s))); [lia|].
  reflexivity.
Qed.

(** *** The decimal numeral of a natural number *)

Lemma pretty_N_char_is_digit (x : N) : is_digit (pretty_N_char x) = true.
Proof. unfold pretty_N_char. repeat case_match; reflexivity. Qed.

Lemma pretty_N_char_value (x : N) :
  (x < 10)%N -> digit_value (pretty_N_char x) = Z.of_N x.
Proof.
  intros H.
  assert (x = 0 \/ x = 1 \/ x = 2 \/ x = 3 \/ x = 4 \/ x = 5
          \/ x = 6 \/ x = 7 \/ x = 8 \/ x = 9)%N as Hx by lia.
  repeat (destruct Hx as [-> | Hx]; [reflexivity|]). now subst.
Qed.

Lemma pretty_N_go_app (x : N) (s : string) :
  pretty_N_go x s = pretty_N_go x "" +:+ s.
Proof.
  revert s. induction (N.lt_wf_0 x) as [x _ IH]. intros s.
  destruct (N.eq_dec x 0%N) as [->|Hx]; [reflexivity|].
  assert (Hlt : (x `div` 10 < x)%N) by (apply N.div_lt; lia).
  rewrite !(pretty_N_go_step x) by lia.
  rewrite (IH _ Hlt (String (pretty_N_char (x `mod` 10)) s)).
  rewrite (IH _ Hlt (String (pretty_N_char (x `mod` 10)) "")).
  now rewrite app_assoc.
Qed.

Lemma pretty_N_go_digits (x : N) : all is_digit (pretty_N_go x "") = true.
Proof.
  induction (N.lt_wf_0 x) as [x _ IH].
  destruct (N.eq_dec x 0%N) as [->|Hx]; [reflexivity|].
  rewrite pretty_N_go_step, pretty_N_go_app by lia.
  rewrite all_app, IH by (apply N.div_lt; lia).
  simpl. now rewrite pretty_N_char_is_digit.
Qed.

Lemma pretty_N_go_value (x : N) : horner 0 (pretty_N_go x "") = Z.of_N x.
Proof.
  induction (N.lt_wf_0 x) as [x _ IH].
  destruct (N.eq_dec x 0%N) as [->|Hx]; [reflexivity|].
  rewrite pretty_N_go_step, pretty_N_go_app by lia.
  rewrite horner_app, IH by (apply N.div_lt; lia).
  simpl. rewrite pretty_N_char_value by (apply N.mod_lt; lia).
  rewrite (N.div_mod x 10) at 3 by lia. lia.
Qed.

Lemma pretty_N_go_nonempty (x : N) : x <> 0%N -> pretty_N_go x "" <> "".
Proof.
  intros Hx. rewrite pretty_N_go_step, pretty_N_go_app by lia.
  destruct (pretty_N_go _ ""); discriminate.
Qed.

Lemma pretty_N_digits (n : N) :
  pretty n <> "" /\ all is_digit (pretty n) = true /\
  horner 0 (pretty n) = Z.of_N n.
Proof.
  unfold pretty, pretty_N. destruct (decide (n = 0%N)) as [->|Hn].
  - repeat split. discriminate.
  - split; [now apply pretty_N_go_nonempty|].
    split; [apply pretty_N_go_digits | apply pretty_N_go_value].
Qed.

(** Parsing undoes printing. *)
Lemma int_pretty (n : N) :
  (String.length (pretty n) <= int_max_str_digits)%nat ->
  int (strip (pretty n)) = Some (Z.of_N n).
Proof.
  intros Hlen. destruct (pretty_N_digits n) as (Hne & Hd & Hv).
  rewrite (strip_digits _ Hd), (int_digits _ Hne Hd Hlen). now rewrite Hv.
Qed.

(** [int] of a signed numeral. *)
Lemma int_minus_digits (s : string) :
  s <> "" -> all is_digit s = true ->
  (String.length s <= PyInt.int_max_str_digits)%nat ->
  PyInt.int (String "-" s) = Some (- PyInt.horner 0 s).
Proof.
intros Hs H Hlen. unfold PyInt.int.
cbn [lstrip_of]. change (is_c_space "-") with false. cbv iota.
unfold PyInt.read_sign. change (Ascii.eqb "-" "-") with true. cbv iota.
destruct s as [|c s]; [congruence|].
pose proof H as H'. simpl in H'. apply andb_true_iff in H' as [Hc _].
destruct (digit_classes c Hc) as (_ & _ & _ & _ & _ & _ & Hu).
assert (Hpre : String.prefix "_" (String c s) = false).
{ change (String.prefix "_" (String c s))
    with (if ascii_dec "_" c then String.prefix "" s else false).
  destruct (ascii_dec "_" c) as [<-|]; [discriminate Hu | reflexivity]. }
rewrite Hpre, (scan_digits_all 0 0 _ H).
cbn [Nat.add]. simpl String.length in *. cbn [Nat.eqb].
destruct (Nat.ltb_spec PyInt.int_max_str_digits (S (String.length s))); [lia|].
reflexivity.
Qed.

Lemma pretty_positive_digits (p : positive) :
  pretty p <> "" /\ all is_digit (pretty p) = true /\
  PyInt.horner 0 (pretty p) = Z.pos p.
Proof. exact (pretty_N_digits (N.pos p)). Qed.

(** The numeral of any integer: it stops the filler, holds no percent
    sign, and [int] reads the integer back from it. *)
Lemma pretty_Z_value (z : Z) :
  (String.length (pretty z) <= PyInt.int_max_str_digits)%nat ->
  pretty z <> "" /\ stops filler (pretty z) = true /\
  all (Re.not_char "%") (pretty z) = true /\
  PyInt.int (strip (pretty z)) = Some z.
Proof.
intros Hlen. destruct z as [|p|p].
- repeat split. discriminate.
- change (pretty (Z.pos p)) with (pretty (N.pos p)) in *.
  destruct (pretty_N_digits (N.pos p)) as (Hne & Hd & _).
  split; [exact Hne|]. split.
  { apply digits_stop; [|exact Hd]. intros c Hc. apply (digit_classes c Hc). }
  split.
  { revert Hd. apply all_impl. intros c Hc. apply (digit_classes c Hc). }
  exact (int_pretty (N.pos p) Hlen).
- change (pretty (Z.neg p)) with (String "-" (pretty p)) in *.
  destruct (pretty_positive_digits p) as (Hne & Hd & Hv).
  assert (Hns : all (fun c => negb (is_space c)) (pretty p) = true).
  { revert Hd. apply all_impl. intros c Hc.
    destruct (digit_classes c Hc) as [-> _]. reflexivity. }
  split; [discriminate|]. split; [reflexivity|]. split.
  { cbn [all]. change (Re.not_char "%" "-") with true. cbn [andb].
    revert Hd. apply all_impl. intros c Hc. apply (digit_classes c Hc). }
  unfold strip. cbn [lstrip_of]. change (is_space "-") with false. cbv iota.
  rewrite (rstrip_of_none is_space (String "-" (pretty p)))
    by (cbn [all]; change (negb (is_space "-")) with true; exact Hns).
  simpl String.length in Hlen.
  rewrite (int_minus_digits _ Hne Hd) by lia. now rewrite Hv.
Qed.

End PyIntFacts.

(** ** The response extractor *)

Section Extractor.
Import Text TextFacts Re ReFacts ExtractorFacts PyIntFacts.

(** A reply without the marker comes back stripped, with no percentage. *)
Lemma extract_no_marker (message : string) :
  contains marker message = false ->
  get_context_similarity_percentage message = Ok (strip message, None).
Proof.
  intros H. unfold get_context_similarity_percentage, search.
  rewrite search_from_none; [reflexivity|].
  intros k. now apply no_marker_no_match.
Qed.

(** Text without the marker has nothing to cut. *)
Lemma sub_empty_no_marker (s : string) :
  contains marker s = false -> sub_empty percentage_pattern s = s.
Proof.
  intros H. apply cut_from_none. intros k. now apply no_marker_no_match.
Qed.

(** The first marker, filler, a value and a percent sign: the match
    starts at the marker and captures the value. *)
Lemma search_first_marker (pre ws g post : string) :
  contains marker pre = false ->
  all filler ws = true ->
  g <> "" -> stops filler g = true -> all (not_char "%") g = true ->
  search percentage_pattern (pre +:+ marker +:+ ws +:+ g +:+ String "%" post)
  = Some (String.length pre, Some g,
          (33 + (String.length ws + (String.length g + 1)))%nat)
  /\ sub_empty percentage_pattern (pre +:+ marker +:+ ws +:+ g +:+ String "%" post)
    = pre +:+ sub_empty percentage_pattern post.
Proof.
  intros Hpre Hws Hg Hstop Hall.
  pose proof (quiet_before_marker pre (ws +:+ g +:+ String "%" post) Hpre) as Hq.
  assert (Hm : match_here percentage_pattern (marker +:+ ws +:+ g +:+ String "%" post)
               = Some (Some g, (33 + (String.length ws + (String.length g + 1)))%nat)).
  { unfold percentage_pattern. rewrite match_here_literal, prefix_app, skip_app.
    rewrite (match_value ws g post Hws Hg Hstop Hall). reflexivity. }
  split.
  - unfold search. rewrite (search_from_quiet _ _ _ _ Hq).
    apply (search_from_hit _ _ _ _ _ Hm).
  - unfold sub_empty. rewrite (cut_from_quiet _ _ _ Hq). f_equal.
    rewrite (cut_from_match _ _ _ _ Hm). f_equal.
    transitivity
      (skip 1 (skip (String.length g) (skip (String.length ws)
         (skip (String.length marker)
            (marker +:+ ws +:+ g +:+ String "%" post))))).
    + rewrite !skip_skip. reflexivity.
    + rewrite !skip_app. reflexivity.
Qed.

End Extractor.

(** C1, as amended. When the first marker of the reply is followed by
    filler ([\s], [#], [*]), the decimal numeral of an integer [z] (with
    its minus sign when negative) and a percent sign, the extractor returns
    [z] and the reply with the matched segment (and every later match in
    [post]) cut out and then stripped of surrounding white space. A reply
    [plain] without the marker comes back stripped of surrounding white
    space, with no percentage. *)
Theorem extractor_returns_percentage (pre ws post plain : string) (z : Z) :
  Text.contains marker pre = false ->
  Text.all filler ws = true ->
  (String.length (pretty z) <= PyInt.int_max_str_digits)%nat ->
  Text.contains marker plain = false ->
  get_context_similarity_percentage
    (pre +:+ marker +:+ ws +:+ pretty z +:+ "%" +:+ post)
  = Ok (Text.strip (pre +:+ Re.sub_empty percentage_pattern post), Some z)
  /\ get_context_similarity_percentage plain = Ok (Text.strip plain, None).
Proof.
  intros Hpre Hws Hlen Hplain. split; [|now apply extract_no_marker].
  destruct (PyIntFacts.pretty_Z_value z Hlen) as (Hne & Hstop & Hall & Hint).
  change ("%" +:+ post) with (String "%" post).
  destruct (search_first_marker pre ws (pretty z) post Hpre Hws Hne Hstop Hall)
    as [Hsearch Hsub].
  unfold get_context_similarity_percentage.
  rewrite Hsearch, Hint, Hsub. reflexivity.
Qed.

Lemma extractor_returns_percentage_witness :
  Text.contains marker "..." = false /\
  Text.all filler " " = true /\
  (String.length (pretty 42) <= PyInt.int_max_str_digits)%nat /\
  Text.contains marker " no marker here " = false /\
  get_context_similarity_percentage
    "...3. Context Similarity Percentage: 42% Thanks. "
  = Ok ("... Thanks.", Some 42)
  /\ get_context_similarity_percentage " no marker here "
     = Ok ("no marker here", None).
Proof.
  assert (H1 : Text.contains marker "..." = false) by reflexivity.
  assert (H2 : Text.all filler " " = true) by reflexivity.
  assert (H3 : (String.length (pretty 42) <= PyInt.int_max_str_digits)%nat)
    by (vm_compute; lia).
  assert (H4 : Text.contains marker " no marker here " = false) by reflexivity.
  split; [exact H1|]. split; [exact H2|]. split; [exact H3|]. split; [exact H4|].
  exact (extractor_returns_percentage "..." " " " Thanks. " " no marker here " 42
           H1 H2 H3 H4).
Defined.

(** C1 as stated fails: a reply without the marker is not returned
    unchanged but stripped, and so is the cleaned message; a marker with an
    integer and a percent sign that comes after an earlier marker is not
    the one read; and a numeral of more than 4300 digits is refused. *)
Lemma extractor_unchanged_counterexample :
  Text.contains marker " no marker here " = false /\
  get_context_similarity_percentage " no marker here "
    = Ok ("no marker here", None) /\
  get_context_similarity_percentage " no marker here "
    <> Ok (" no marker here ", None) /\
  get_context_similarity_percentage " 3. Context Similarity Percentage: 42% ok "
    = Ok ("ok", Some 42) /\
  get_context_similarity_percentage
    "3. Context Similarity Percentage: N/A 3. Context Similarity Percentage: 42%"
    = Raise ValueError /\
  get_context_similarity_percentage
    (marker +:+ " " +:+ Text.times 4301 "1" +:+ "%")
    = Raise ValueError.
Proof.
split; [reflexivity|]. split; [reflexivity|].
split; [vm_compute; discriminate|].
repeat split; vm_compute; reflexivity.
Qed.

(** C5. The marker followed by [N/A] makes the conversion to an integer
    fail: the extractor raises [ValueError] and returns no number. *)
Theorem extractor_rejects_non_numeric :
  Re.search percentage_pattern "3. Context Similarity Percentage: N/A"
    = Some (0%nat, Some "N/A", 37%nat) /\
  PyInt.int (Text.strip "N/A") = None /\
  get_context_similarity_percentage "3. Context Similarity Percentage: N/A"
    = Raise ValueError.
Proof. repeat split; vm_compute; reflexivity. Qed.

(** ** The chat id *)




(** ** The polling loop *)

Section Polling.

Ltac run_step :=
  unfold runs_retrieve, runs_create, next_report, record, modify, bind,
    still_waiting, ret, gets, raise; simpl.

Lemma wait_unfold (fuel : nat) (thread_id : string) (run : run_object) :
  wait_until_completed fuel thread_id run =
  if negb (String.eqb (status run) "completed") then
    match fuel with
    | S fuel' =>
        record Sleep ;;;
        run' <- runs_retrieve thread_id (run_id run) ;;
        wait_until_completed fuel' thread_id run'
    | O => still_waiting
    end
  else ret run.
Proof. destruct fuel; reflexivity. Qed.

Lemma never_completed_later (r r' : Remote) :
  run_reports r' = run_reports r -> (reported r <= reported r')%nat ->
  never_completed r -> never_completed r'.
Proof.
  intros Hrep Hle H k Hk. rewrite Hrep. apply H. lia.
Qed.

(** While every report says "not completed", the loop is still waiting
    after any number of rounds. *)
Lemma wait_never_exits (fuel : nat) (thread_id : string) :
  forall (run : run_object) (st : state),
    status run <> "completed" -> never_completed (remote st) ->
    fst (wait_until_completed fuel thread_id run st) = Waiting.
Proof.
  induction fuel as [|fuel IH]; intros run st Hrun Hnever;
    rewrite wait_unfold;
    apply String.eqb_neq in Hrun as Hb; rewrite Hb; simpl negb; cbv iota.
  - reflexivity.
  - destruct (Hnever (reported (remote st)) (Nat.le_refl _)) as (run' & Hrep & Hst).
    run_step. rewrite Hrep.
    apply IH; [exact Hst|].
    eapply never_completed_later; [| |exact Hnever]; simpl; [reflexivity | lia].
Qed.

(** When the loop exits normally, the run it holds is completed, and it
    is the run it started with or a later report. *)
Lemma wait_exits_completed (fuel : nat) (thread_id : string) :
  forall (run run' : run_object) (st st' : state),
    wait_until_completed fuel thread_id run st = (Ok run', st') ->
    status run' = "completed" /\
    (run' = run \/
     exists k, (reported (remote st) <= k)%nat /\
               run_reports (remote st) k = Some run').
Proof.
  induction fuel as [|fuel IH]; intros run run' st st'; rewrite wait_unfold;
    destruct (String.eqb_spec (status run) "completed") as [Hc|Hc];
    simpl negb; cbv iota.
  - intros [= <- <-]. split; [exact Hc | now left].
  - discriminate.
  - intros [= <- <-]. split; [exact Hc | now left].
  - run_step.
    destruct (run_reports (remote st) (reported (remote st))) as [r1|] eqn:Hrep;
      [|discriminate].
    intros H. apply IH in H as [Hdone Hfrom]. split; [exact Hdone|].
    right. destruct Hfrom as [-> | (k & Hk & Hrun)].
    + exists (reported (remote st)). split; [lia | exact Hrep].
    + simpl in *. exists k. split; [lia | exact Hrun].
Qed.

(** C7. The loop of [run_assistant] leaves only on a report whose status
    is "completed": if no report from now on says so (they may say
    failed, cancelled or expired), the call is still waiting after any
    number of rounds; and a call that returns has seen such a report. *)
Theorem run_assistant_waits_for_completed
    (thread_id assistant_id : string) (st : state) :
  assistant (self st) = Some assistant_id ->
  (never_completed (remote st) ->
   forall fuel, fst (run_assistant fuel thread_id st) = Waiting)
  /\ (forall fuel message st',
        run_assistant fuel thread_id st = (Ok message, st') ->
        exists k run,
          (reported (remote st) <= k)%nat /\
          run_reports (remote st) k = Some run /\ status run = "completed").
Proof.
  intros Ha. split.
  - intros Hnever fuel.
    destruct (Hnever (reported (remote st)) (Nat.le_refl _)) as (run & Hrep & Hst).
    unfold run_assistant. run_step. rewrite Ha. run_step. rewrite Hrep.
    match goal with
    | |- fst (match ?w with _ => _ end) = _ =>
        assert (Hw : fst w = Waiting); [|destruct w as [[]]; simpl in *; congruence]
    end.
    apply wait_never_exits; [exact Hst|].
    eapply never_completed_later; [| |exact Hnever]; simpl; [reflexivity | lia].
  - intros fuel message st'.
    unfold run_assistant. run_step. rewrite Ha. run_step.
    destruct (run_reports (remote st) (reported (remote st))) as [run|] eqn:Hrep;
      [|discriminate].
    match goal with
    | |- match ?w with _ => _ end = _ -> _ => destruct w as [[run'| |] st1] eqn:Hw
    end; try discriminate.
    intros _. apply wait_exits_completed in Hw as [Hdone Hfrom].
    destruct Hfrom as [-> | (k & Hk & Hrun)].
    + exists (reported (remote st)), run. repeat split; [lia | exact Hrep | exact Hdone].
    + simpl in *. exists k, run'. repeat split; [lia | exact Hrun | exact Hdone].
Qed.

End Polling.

Lemma run_assistant_waits_for_completed_witness :
  let st := machine (mkPAT (PyInt 7731) (Some "asst_1") [] []) ∅
                    (service [] [] [] ["queued"; "in_progress"] "failed" []) 0 in
  assistant (self st) = Some "asst_1" /\
  never_completed (remote st) /\
  forall fuel, fst (run_assistant fuel "thread_1" st) = Waiting.
Proof.
  intros st.
  assert (Ha : assistant (self st) = Some "asst_1") by reflexivity.
  assert (Hn : never_completed (remote st)).
  { intros k _. eexists. split; [reflexivity|]. simpl.
    destruct k as [|[|[|k]]]; simpl; discriminate. }
  split; [exact Ha|]. split; [exact Hn|].
  exact (proj1 (run_assistant_waits_for_completed "thread_1" "asst_1" st Ha) Hn).
Defined.

(** ** The table of threads *)

Section Threads.

#[local] Arguments bind_text : simpl never.

Ltac db_step :=
  unfold check_if_thread_exist, select_thread_id, threads_create,
    insert_thread, lift, record, modify, bind, ret, gets, raise; simpl.

Lemma find_app_miss {A} (f : A -> bool) (l : list A) (x : A) :
  find f l = None -> find f (l ++ [x]) = if f x then Some x else None.
Proof.
  induction l as [|y l IH]; simpl; [reflexivity|].
  destruct (f y); [discriminate | exact IH].
Qed.

(** C3. When the lookup for the argument misses, the row inserted for
    the new thread holds the session's own chat id (as the TEXT column
    stores it), whatever the argument was. *)
Theorem check_if_thread_exist_inserts_own_chat_id
    (chat_id_arg : pyval) (st : state) (parameter stored : option string)
    (thread_id : string) (r : Remote) :
  bind_text chat_id_arg = Ok parameter ->
  find (fun row => sql_eq (row_chat_id row) parameter) (threads st) = None ->
  take_thread_id (remote st) = Some (thread_id, r) ->
  bind_text (chat_id (self st)) = Ok stored ->
  existsb (fun row => String.eqb (row_thread_id row) thread_id) (threads st) = false ->
  exists st',
    check_if_thread_exist chat_id_arg st = (Ok thread_id, st') /\
    threads st' = threads st ++ [mkRow stored thread_id] /\
    self st' = self st.
Proof.
  intros Hparam Hmiss Htake Hown Hfresh.
  db_step. rewrite Hparam, Hmiss. db_step. rewrite Htake. db_step.
  rewrite Hown, Hfresh. db_step.
  eexists. split; [reflexivity|]. split; reflexivity.
Qed.

(** When the argument is the session's own chat id and a thread comes
    back, asking again gives the same thread and changes nothing. *)
Lemma check_if_thread_exist_stable (st st' : state) (text thread_id : string) :
  bind_text (chat_id (self st)) = Ok (Some text) ->
  check_if_thread_exist (chat_id (self st)) st = (Ok thread_id, st') ->
  check_if_thread_exist (chat_id (self st)) st' = (Ok thread_id, st').
Proof.
  intros Hown. db_step. rewrite Hown.
  destruct (find _ (threads st)) as [row|] eqn:Hfind; simpl.
  - intros [= ? ?]; subst. now rewrite Hfind.
  - destruct (take_thread_id (remote st)) as [[i r]|]; [|discriminate]. simpl.
    rewrite Hown.
    destruct (existsb _ (threads st)); [discriminate|].
    intros [= ? ?]; subst. simpl.
    rewrite (find_app_miss _ _ _ Hfind). simpl.
    now rewrite String.eqb_refl.
Qed.

End Threads.

Lemma check_if_thread_exist_inserts_own_chat_id_witness :
  let st := machine (mkPAT (PyInt 2000) None [] []) ∅
                    (service [] [] ["thread_a"; "thread_b"] [] "queued" []) 0 in
  exists st',
    check_if_thread_exist (PyInt 1000) st = (Ok "thread_a", st') /\
    threads st' = threads st ++ [mkRow (Some "2000") "thread_a"] /\
    self st' = self st.
Proof.
  intros st.
  exact (check_if_thread_exist_inserts_own_chat_id
           (PyInt 1000) st (Some "1000") (Some "2000") "thread_a"
           (service [] [] ["thread_b"] [] "queued" [])
           eq_refl eq_refl eq_refl eq_refl eq_refl).
Defined.

(** C2 fails on the code: the row is stored under the session's chat id,
    not under the id that was looked up. With the session's id 2000, two
    lookups of 1000 make two threads, and the lookup of 2000 then resolves
    to the thread made for 1000. *)
Theorem check_if_thread_exist_diverges :
  let st := machine (mkPAT (PyInt 2000) None [] []) ∅
                    (service [] [] ["thread_a"; "thread_b"] [] "queued" []) 0 in
  let first := check_if_thread_exist (PyInt 1000) st in
  let second := check_if_thread_exist (PyInt 1000) (snd first) in
  let other := check_if_thread_exist (PyInt 2000) (snd second) in
  fst first = Ok "thread_a" /\
  fst second = Ok "thread_b" /\
  fst other = Ok "thread_a" /\
  threads (snd other) = [mkRow (Some "2000") "thread_a"; mkRow (Some "2000") "thread_b"].
Proof. vm_compute. repeat split. Qed.

(** ** Answering a message *)

Section Responses.

#[local] Arguments bind_text : simpl never.
#[local] Arguments compare_prompt : simpl never.
#[local] Arguments get_context_similarity_percentage : simpl never.

Ltac step :=
  unfold runs_retrieve, runs_create, next_report, newest_message,
    messages_create, threads_create, insert_thread, select_thread_id,
    index, lift, record, modify, bind, still_waiting, ret, gets, raise; simpl.

Lemma silent_nil : silent [].
Proof. constructor. Qed.

Lemma silent_cons (e : event) (l : list event) :
  is_message_create e = false -> silent l -> silent (e :: l).
Proof. intros He Hl. now constructor. Qed.

Lemma check_if_thread_exist_frame (chat_id_arg : pyval) (st : state) :
  self (snd (check_if_thread_exist chat_id_arg st)) = self st /\
  exists later,
    journal (snd (check_if_thread_exist chat_id_arg st)) = journal st ++ later /\
    silent later.
Proof.
  unfold check_if_thread_exist. step.
  destruct (bind_text chat_id_arg) as [parameter| |]; simpl;
    try (split; [reflexivity | exists []; rewrite app_nil_r; split;
                                [reflexivity | apply silent_nil]]).
  destruct (find _ (threads st)); simpl;
    try (split; [reflexivity | exists []; rewrite app_nil_r; split;
                                [reflexivity | apply silent_nil]]).
  assert (Hone : silent [ThreadsCreate]) by (apply silent_cons; [reflexivity | apply silent_nil]).
  destruct (take_thread_id (remote st)) as [[i r]|]; simpl;
    [|split; [reflexivity | exists [ThreadsCreate]; split; [reflexivity | exact Hone]]].
  destruct (bind_text (chat_id (self st))) as [stored| |]; simpl;
    try (split; [reflexivity | exists [ThreadsCreate]; split; [reflexivity | exact Hone]]).
  destruct (existsb _ (threads st)); simpl;
    split; try reflexivity; exists [ThreadsCreate]; split;
    try reflexivity; exact Hone.
Qed.

Lemma wait_journal (fuel : nat) (thread_id : string) :
  forall (run : run_object) (st : state),
    exists later,
      journal (snd (wait_until_completed fuel thread_id run st))
      = journal st ++ later /\ silent later.
Proof.
  induction fuel as [|fuel IH]; intros run st; rewrite wait_unfold;
    destruct (negb (status run =? "completed")%string).
  - exists []. rewrite app_nil_r. split; [reflexivity | apply silent_nil].
  - exists []. rewrite app_nil_r. split; [reflexivity | apply silent_nil].
  - step.
    destruct (run_reports (remote st) (reported (remote st))) as [run'|].
    + match goal with
      | |- context [wait_until_completed fuel thread_id run' ?s] =>
          destruct (IH run' s) as (later & Hj & Hs)
      end.
      exists (Sleep :: RunsRetrieve thread_id (run_id run) :: later).
      rewrite Hj. simpl. rewrite <- !app_assoc. simpl.
      split; [reflexivity|]. repeat apply silent_cons; auto.
    + exists [Sleep; RunsRetrieve thread_id (run_id run)].
      simpl. rewrite <- !app_assoc. simpl.
      split; [reflexivity|]. repeat apply silent_cons; auto. apply silent_nil.
  - exists []. rewrite app_nil_r. split; [reflexivity | apply silent_nil].
Qed.

Lemma run_assistant_journal (fuel : nat) (thread_id : string) (st : state) :
  exists later,
    journal (snd (run_assistant fuel thread_id st)) = journal st ++ later /\
    silent later.
Proof.
  unfold run_assistant. step.
  destruct (assistant (self st)) as [assistant_id|]; step.
  2: { exists [AssistantsList]. split; [reflexivity|].
       apply silent_cons; [reflexivity | apply silent_nil]. }
  destruct (run_reports (remote st) (reported (remote st))) as [run|].
  2: { exists [AssistantsList; RunsCreate thread_id assistant_id]. simpl.
       rewrite <- app_assoc. split; [reflexivity|].
       repeat apply silent_cons; auto. apply silent_nil. }
  match goal with
  | |- context [wait_until_completed fuel thread_id run ?s] =>
      destruct (wait_journal fuel thread_id run s) as (later & Hj & Hs);
      destruct (wait_until_completed fuel thread_id run s) as [[run'| |] st1]
  end; simpl in *.
  - destruct (next_replies (remote st1)); simpl; rewrite Hj;
      exists (AssistantsList :: RunsCreate thread_id assistant_id
                :: later ++ [MessagesList thread_id]);
      rewrite <- !app_assoc; simpl; (split; [reflexivity|]);
      repeat apply silent_cons; auto;
      apply Forall_app; (split; [exact Hs|]);
      apply silent_cons; [reflexivity | apply silent_nil | reflexivity | apply silent_nil].
  - exists (AssistantsList :: RunsCreate thread_id assistant_id :: later).
    rewrite Hj, <- !app_assoc. simpl. split; [reflexivity|].
    repeat apply silent_cons; auto.
  - exists (AssistantsList :: RunsCreate thread_id assistant_id :: later).
    rewrite Hj, <- !app_assoc. simpl. split; [reflexivity|].
    repeat apply silent_cons; auto.
Qed.

Lemma contains_middle (m a b : string) :
  Text.contains m (a +:+ m +:+ b) = true.
Proof.
  induction a as [|c a IH].
  - rewrite TextFacts.app_nil_l.
    apply TextFacts.contains_prefix, TextFacts.prefix_app.
  - rewrite TextFacts.app_cons, TextFacts.contains_cons, IH.
    apply orb_true_r.
Qed.

Lemma contains_after (m a x : string) :
  Text.contains m x = true -> Text.contains m (a +:+ x) = true.
Proof.
  intros H. induction a as [|c a IH]; [exact H|].
  rewrite TextFacts.app_cons, TextFacts.contains_cons, IH. apply orb_true_r.
Qed.

Lemma prefix_app2 (a b r : string) :
  String.prefix (a +:+ b) (a +:+ b +:+ r) = true.
Proof. rewrite <- TextFacts.app_assoc. apply TextFacts.prefix_app. Qed.

Lemma prefix_app4 (a b c d r : string) :
  String.prefix (a +:+ b +:+ c +:+ d) (a +:+ b +:+ c +:+ d +:+ r) = true.
Proof.
  replace (a +:+ b +:+ c +:+ d +:+ r) with ((a +:+ b +:+ c +:+ d) +:+ r)
    by (now rewrite !TextFacts.app_assoc).
  apply TextFacts.prefix_app.
Qed.

Lemma prefix_app_same (x n t : string) :
  String.prefix n t = true -> String.prefix (x +:+ n) (x +:+ t) = true.
Proof.
  intros H. induction x as [|c x IH]; [exact H|].
  rewrite !TextFacts.app_cons.
  change (String.prefix (String c (x +:+ n)) (String c (x +:+ t)))
    with (if ascii_dec c c then String.prefix (x +:+ n) (x +:+ t) else false).
  now destruct (ascii_dec c c).
Qed.

(** A text around the field [x] is found in a string that writes them out
    after [a]. *)
Lemma contains_field (a pre x n t whole : string) :
  whole = a +:+ pre +:+ x +:+ t ->
  String.prefix n t = true ->
  Text.contains (pre +:+ x +:+ n) whole = true.
Proof.
  intros -> H. apply contains_after, TextFacts.contains_prefix.
  now do 2 apply prefix_app_same.
Qed.

(** The two places of the prompt that show the percentage, for its text. *)
Lemma compare_prompt_shows (file0 file1 text : string) :
  Text.contains
    ("The resulting cosine similarity indicates a " +:+ text
     +:+ "% textual similarity between the patents.")
    (compare_prompt file0 file1 text) = true /\
  Text.contains
    ("why the patents exhibit a " +:+ text +:+ "% similarity in text.")
    (compare_prompt file0 file1 text) = true.
Proof.
  unfold compare_prompt. split.
  - do 6 apply contains_after.
    eapply (contains_field
              "of Cosine similarity between the TF-IDF vectors of the two patents. "
              "The resulting cosine similarity indicates a " text);
      reflexivity.
  - do 15 apply contains_after.
    eapply (contains_field
              "1. Pat's Thoughts on Text Similarity: Provide insights into "
              "why the patents exhibit a " text);
      reflexivity.
Qed.

(** C9. With the sentinel as message, a percentage that is not [None]
    and at least two tracked remote file ids, the message appended to the
    thread is the comparison prompt built from the first two file ids
    and the text of the percentage; no other message is appended, so the
    sentinel itself is not sent. For an integer percentage that text is
    its decimal numeral, which the prompt shows in both of its sentences
    about the textual similarity. *)
Theorem generate_response_sends_compare_prompt
    (fuel : nat) (st st1 : state) (percentage : pyval)
    (file0 file1 thread_id : string) (more : list string) :
  percentage <> PyNone ->
  patent_files (self st) = file0 :: file1 :: more ->
  check_if_thread_exist (chat_id (self st)) st = (Ok thread_id, st1) ->
  let prompt := compare_prompt file0 file1 (py_str percentage) in
  (exists later,
      journal (snd (generate_response fuel sentinel percentage st))
      = journal st1 ++ MessagesCreate thread_id "user" prompt :: later /\
      silent later)
  /\ String.prefix
       (file0 +:+ " is the patent provided, and " +:+ file1 +:+ " is the patent ")
       prompt = true
  /\ Text.contains
       (py_str percentage +:+ "% textual similarity between the patents.") prompt
     = true
  /\ prompt <> sentinel
  /\ (forall z : Z, percentage = PyInt z ->
        prompt = compare_prompt file0 file1 (pretty z) /\
        Text.contains
          ("The resulting cosine similarity indicates a " +:+ pretty z
           +:+ "% textual similarity between the patents.") prompt = true /\
        Text.contains
          ("why the patents exhibit a " +:+ pretty z +:+ "% similarity in text.")
          prompt = true)
  /\ (forall text : string, percentage = PyStr text ->
        prompt = compare_prompt file0 file1 text /\
        Text.contains
          ("The resulting cosine similarity indicates a " +:+ text
           +:+ "% textual similarity between the patents.") prompt = true /\
        Text.contains
          ("why the patents exhibit a " +:+ text +:+ "% similarity in text.")
          prompt = true).
Proof.
  intros Hp Hfiles Hcheck prompt.
  pose proof (check_if_thread_exist_frame (chat_id (self st)) st) as [Hself _].
  rewrite Hcheck in Hself. simpl in Hself.
  assert (Hnone : is_None percentage = false) by (now destruct percentage).
  split; [|split; [|split; [|split; [|split]]]].
  - unfold generate_response.
    unfold bind at 1, gets at 1. unfold bind at 1. rewrite Hcheck.
    rewrite String.eqb_refl, Hnone. simpl negb. simpl andb. cbv iota.
    step. rewrite Hself, Hfiles. simpl.
    fold prompt.
    match goal with
    | |- context [run_assistant fuel thread_id ?s] =>
        destruct (run_assistant_journal fuel thread_id s) as (later & Hj & Hs);
        destruct (run_assistant fuel thread_id s) as [[msg| |] st3]
    end; simpl in *; exists later;
      rewrite Hj, <- app_assoc; split; [reflexivity | exact Hs | reflexivity
                                       | exact Hs | reflexivity | exact Hs].
  - unfold prompt, compare_prompt. apply prefix_app4.
  - unfold prompt, compare_prompt.
    do 7 apply contains_after.
    apply TextFacts.contains_prefix, prefix_app2.
  - unfold prompt, compare_prompt. intros E.
    apply (f_equal String.length) in E.
    rewrite !TextFacts.length_app in E. simpl in E. lia.
  - intros z ->. split; [reflexivity|].
    exact (compare_prompt_shows file0 file1 (pretty z)).
  - intros text ->. split; [reflexivity|].
    exact (compare_prompt_shows file0 file1 text).
Qed.

(** C10. With the sentinel as message, a percentage that is not [None]
    and fewer than two tracked remote file ids, building the prompt
    raises [IndexError] once the thread is resolved, and the call ends
    there: no message was appended to the thread. *)
Theorem generate_response_needs_two_files
    (fuel : nat) (st st1 : state) (percentage : pyval) (thread_id : string) :
  percentage <> PyNone ->
  (length (patent_files (self st)) < 2)%nat ->
  check_if_thread_exist (chat_id (self st)) st = (Ok thread_id, st1) ->
  generate_response fuel sentinel percentage st = (Raise IndexError, st1) /\
  exists later, journal st1 = journal st ++ later /\ silent later.
Proof.
  intros Hp Hlen Hcheck.
  pose proof (check_if_thread_exist_frame (chat_id (self st)) st) as [Hself Hj].
  rewrite Hcheck in Hself, Hj. simpl in Hself, Hj.
  assert (Hnone : is_None percentage = false) by (now destruct percentage).
  split; [|exact Hj].
  unfold generate_response.
  unfold bind at 1, gets at 1. unfold bind at 1. rewrite Hcheck.
  rewrite String.eqb_refl, Hnone. simpl negb. simpl andb. cbv iota.
  step. rewrite Hself.
  destruct (patent_files (self st)) as [|file0 [|file1 more]]; simpl in *;
    [reflexivity | reflexivity | lia].
Qed.

End Responses.

Lemma generate_response_sends_compare_prompt_witness :
  let st := machine (mkPAT (PyInt 7731) (Some "asst_1") ["a.pdf"; "b.pdf"]
                           ["file-1"; "file-2"]) ∅
                    (service [] [] ["thread_1"] ["queued"] "completed"
                             ["3. Context Similarity Percentage: 57%"]) 0 in
  let st1 := snd (check_if_thread_exist (chat_id (self st)) st) in
  let prompt := compare_prompt "file-1" "file-2" "83" in
  PyInt 83 <> PyNone /\
  patent_files (self st) = ["file-1"; "file-2"] /\
  check_if_thread_exist (chat_id (self st)) st = (Ok "thread_1", st1) /\
  (exists later,
      journal (snd (generate_response 5 sentinel (PyInt 83) st))
      = journal st1 ++ MessagesCreate "thread_1" "user" prompt :: later /\
      silent later)
  /\ String.prefix "file-1 is the patent provided, and file-2 is the patent "
       prompt = true
  /\ Text.contains "83% textual similarity between the patents." prompt = true
  /\ prompt <> sentinel
  /\ Text.contains
       "The resulting cosine similarity indicates a 83% textual similarity between the patents."
       prompt = true
  /\ Text.contains "why the patents exhibit a 83% similarity in text." prompt
     = true.
Proof.
  intros st st1 prompt.
  assert (H1 : PyInt 83 <> PyNone) by discriminate.
  assert (H2 : patent_files (self st) = ["file-1"; "file-2"]) by reflexivity.
  assert (H3 : check_if_thread_exist (chat_id (self st)) st = (Ok "thread_1", st1))
    by (vm_compute; reflexivity).
  split; [exact H1|]. split; [exact H2|]. split; [exact H3|].
  destruct (generate_response_sends_compare_prompt
              5 st st1 (PyInt 83) "file-1" "file-2" "thread_1" [] H1 H2 H3)
    as (Hsent & Hstart & Hshown & Hnot & Hint & _).
  destruct (Hint 83 eq_refl) as (_ & Hfirst & Hsecond).
  split; [exact Hsent|]. split; [exact Hstart|]. split; [exact Hshown|].
  split; [exact Hnot|]. split; [exact Hfirst | exact Hsecond].
Defined.

Lemma generate_response_needs_two_files_witness :
  let st := machine (mkPAT (PyInt 7731) (Some "asst_1") ["a.pdf"] ["file-1"]) ∅
                    (service [] [] ["thread_1"] ["queued"] "completed" []) 0 in
  let st1 := snd (check_if_thread_exist (chat_id (self st)) st) in
  PyInt 83 <> PyNone /\
  (length (patent_files (self st)) < 2)%nat /\
  check_if_thread_exist (chat_id (self st)) st = (Ok "thread_1", st1) /\
  generate_response 5 sentinel (PyInt 83) st = (Raise IndexError, st1) /\
  exists later, journal st1 = journal st ++ later /\ silent later.
Proof.
  intros st st1.
  assert (H1 : PyInt 83 <> PyNone) by discriminate.
  assert (H2 : (length (patent_files (self st)) < 2)%nat) by (simpl; lia).
  assert (H3 : check_if_thread_exist (chat_id (self st)) st = (Ok "thread_1", st1))
    by (vm_compute; reflexivity).
  split; [exact H1|]. split; [exact H2|]. split; [exact H3|].
  exact (generate_response_needs_two_files 5 st st1 (PyInt 83) "thread_1" H1 H2 H3).
Defined.

(** ** Base64: decoding undoes encoding *)

Module Base64Facts.
Import Base64.

Lemma byte_of_to_N (b : byte) : byte_of (Byte.to_N b) = b.
Proof.
unfold byte_of. pose proof (Byte.to_N_bounded b) as Hb.
rewrite N.mod_small by lia. now rewrite Byte.of_to_N.
Qed.

(** A property checked on each of the 256 bytes holds of every byte. *)
Lemma every_byte_spec (P : byte -> bool) :
  every_byte P = true -> forall b, P b = true.
Proof.
unfold every_byte. rewrite forallb_forall. intros H b.
rewrite <- (byte_of_to_N b), <- (N2Nat.id (Byte.to_N b)).
apply H, in_seq. pose proof (Byte.to_N_bounded b). lia.
Qed.

Lemma every_pair_spec (P : byte -> byte -> bool) :
  every_byte (fun a => every_byte (P a)) = true -> forall a b, P a b = true.
Proof.
intros H a b. apply every_byte_spec. revert a. now apply every_byte_spec.
Qed.

Lemma table_round_trip (n : N) :
  (n < 64)%N ->
  Byte.eqb (table_b2a n) pad = false /\ table_a2b (table_b2a n) = Some n.
Proof.
intros Hn.
assert (H : forallb (fun k => negb (Byte.eqb (table_b2a (N.of_nat k)) pad)
                              && match table_a2b (table_b2a (N.of_nat k)) with
                                 | Some m => N.eqb m (N.of_nat k)
                                 | None => false
                                 end) (seq 0 64) = true)
  by (vm_compute; reflexivity).
rewrite forallb_forall in H.
assert (Hin : In (N.to_nat n) (seq 0 64)) by (apply in_seq; lia).
specialize (H _ Hin). rewrite N2Nat.id in H. apply andb_true_iff in H as [H1 H2].
split; [now apply negb_true_iff|].
destruct (table_a2b (table_b2a n)) as [m|]; [|discriminate].
now apply N.eqb_eq in H2 as ->.
Qed.

Lemma digits_small (a b : byte) :
  (digit1 a < 64 /\ digit2 a b < 64 /\ digit3 a b < 64 /\ digit4 a < 64
   /\ last_of_one a < 64 /\ last_of_two a < 64)%N.
Proof.
pose proof (every_pair_spec
  (fun a b => (digit1 a <? 64) && (digit2 a b <? 64) && (digit3 a b <? 64)
              && (digit4 a <? 64)
              && (last_of_one a <? 64) && (last_of_two a <? 64))%N
  ltac:(vm_compute; reflexivity) a b) as H.
repeat (apply andb_true_iff in H as [H ?]).
repeat split; now apply N.ltb_lt.
Qed.

(** How the decoder's shifts and masks take the digits apart: [b] is the
    byte before or after [a]. *)
Lemma digits_apart (a b : byte) :
  N.shiftr (digit2 a b) 4 = N.land (Byte.to_N a) 3 /\
  N.land (digit2 b a) 15 = N.shiftr (Byte.to_N a) 4 /\
  N.shiftr (digit3 a b) 2 = N.land (Byte.to_N a) 15 /\
  N.land (digit3 b a) 3 = N.shiftr (Byte.to_N a) 6 /\
  N.shiftr (last_of_one a) 4 = N.land (Byte.to_N a) 3 /\
  N.shiftr (last_of_two a) 2 = N.land (Byte.to_N a) 15.
Proof.
pose proof (every_pair_spec
  (fun a b =>
     (N.shiftr (digit2 a b) 4 =? N.land (Byte.to_N a) 3)
     && (N.land (digit2 b a) 15 =? N.shiftr (Byte.to_N a) 4)
     && (N.shiftr (digit3 a b) 2 =? N.land (Byte.to_N a) 15)
     && (N.land (digit3 b a) 3 =? N.shiftr (Byte.to_N a) 6)
     && (N.shiftr (last_of_one a) 4 =? N.land (Byte.to_N a) 3)
     && (N.shiftr (last_of_two a) 2 =? N.land (Byte.to_N a) 15))%N
  ltac:(vm_compute; reflexivity) a b) as H.
repeat (apply andb_true_iff in H as [H ?]).
repeat split; now apply N.eqb_eq.
Qed.

(** The byte that the decoder puts together from two parts of it. *)
Lemma parts_joined (a : byte) :
  byte_of (N.lor (N.shiftl (digit1 a) 2) (N.land (Byte.to_N a) 3)) = a /\
  byte_of (N.lor (N.shiftl (N.shiftr (Byte.to_N a) 4) 4) (N.land (Byte.to_N a) 15)) = a /\
  byte_of (N.lor (N.shiftl (N.shiftr (Byte.to_N a) 6) 6) (digit4 a)) = a.
Proof.
pose proof (every_byte_spec
  (fun a =>
     Byte.eqb (byte_of (N.lor (N.shiftl (digit1 a) 2) (N.land (Byte.to_N a) 3))) a
     && Byte.eqb (byte_of (N.lor (N.shiftl (N.shiftr (Byte.to_N a) 4) 4)
                                 (N.land (Byte.to_N a) 15))) a
     && Byte.eqb (byte_of (N.lor (N.shiftl (N.shiftr (Byte.to_N a) 6) 6) (digit4 a))) a)
  ltac:(vm_compute; reflexivity) a) as H.
repeat (apply andb_true_iff in H as [H ?]).
repeat split; now apply Byte.byte_dec_bl.
Qed.

(** One round of the loop on a digit of the alphabet. *)
Lemma a2b_loop_digit (quad_pos : nat) (leftchar : N) (pads : nat) (n : N)
    (s : list byte) :
  (n < 64)%N ->
  a2b_loop quad_pos leftchar pads (table_b2a n :: s) =
  match quad_pos with
  | 0%nat => a2b_loop 1 n 0 s
  | 1%nat =>
      cons (byte_of (N.lor (N.shiftl leftchar 2) (N.shiftr n 4)))
        <$> a2b_loop 2 (N.land n 15) 0 s
  | 2%nat =>
      cons (byte_of (N.lor (N.shiftl leftchar 4) (N.shiftr n 2)))
        <$> a2b_loop 3 (N.land n 3) 0 s
  | _ =>
      cons (byte_of (N.lor (N.shiftl leftchar 6) n)) <$> a2b_loop 0 0 0 s
  end.
Proof.
intros Hn. destruct (table_round_trip n Hn) as [Hpad Htab].
cbn [a2b_loop]. rewrite Hpad, Htab. reflexivity.
Qed.

Lemma list_ind3 {A} (P : list A -> Prop) :
  P [] -> (forall a, P [a]) -> (forall a b, P [a; b]) ->
  (forall a b c l, P l -> P (a :: b :: c :: l)) ->
  forall l, P l.
Proof.
intros H0 H1 H2 H3.
assert (H : forall l, P l /\ (forall a, P (a :: l)) /\ (forall a b, P (a :: b :: l))).
{ induction l as [|x l (IH0 & IH1 & IH2)]; [now repeat split|].
  split; [apply IH1|]. split; [intros a; apply IH2|]. intros a b. now apply H3. }
intros l. apply H.
Qed.

(** Decoding undoes encoding. *)
Lemma b64decode_b64encode (s : list byte) : b64decode (b64encode s) = Some s.
Proof.
unfold b64decode. induction s as [|a|a b|a b c s IH] using list_ind3.
- reflexivity.
- cbn [b64encode].
  destruct (digits_small a a) as (H1 & _ & _ & _ & H5 & _).
  destruct (digits_apart a a) as (_ & _ & _ & _ & E5 & _).
  destruct (parts_joined a) as (J1 & _ & _).
  rewrite (a2b_loop_digit _ _ _ _ _ H1), (a2b_loop_digit _ _ _ _ _ H5).
  rewrite E5, J1. reflexivity.
- cbn [b64encode].
  destruct (digits_small a b) as (H1 & H2 & _).
  destruct (digits_small b b) as (_ & _ & _ & _ & _ & H6).
  destruct (digits_apart a b) as (E1 & _).
  destruct (digits_apart b a) as (_ & E2 & _ & _ & _ & E6).
  destruct (parts_joined a) as (J1 & _ & _).
  destruct (parts_joined b) as (_ & J2 & _).
  rewrite (a2b_loop_digit _ _ _ _ _ H1), (a2b_loop_digit _ _ _ _ _ H2),
    (a2b_loop_digit _ _ _ _ _ H6).
  rewrite E1, J1, E2, E6, J2. reflexivity.
- cbn [b64encode].
  destruct (digits_small a b) as (H1 & H2 & _).
  destruct (digits_small b c) as (_ & _ & H3 & _).
  destruct (digits_small c c) as (_ & _ & _ & H4 & _).
  destruct (digits_apart a b) as (E1 & _).
  destruct (digits_apart b a) as (_ & E2 & _).
  destruct (digits_apart b c) as (_ & _ & E3 & _).
  destruct (digits_apart c b) as (_ & _ & _ & E4 & _).
  destruct (parts_joined a) as (J1 & _ & _).
  destruct (parts_joined b) as (_ & J2 & _).
  destruct (parts_joined c) as (_ & _ & J3).
  rewrite (a2b_loop_digit _ _ _ _ _ H1), (a2b_loop_digit _ _ _ _ _ H2),
    (a2b_loop_digit _ _ _ _ _ H3), (a2b_loop_digit _ _ _ _ _ H4).
  rewrite E1, J1, E2, E3, J2, E4, J3, IH. reflexivity.
Qed.

End Base64Facts.

(** ** Obscuring and revealing a file *)

Lemma stand_in_law (current_time : N) (iv data : list byte) :
  length iv = 16%nat ->
  stand_in_decrypt (stand_in_encrypt current_time iv data) = Some data.
Proof.
intros Hiv. unfold stand_in_decrypt, stand_in_encrypt.
rewrite length_app, Hiv.
replace (16 + length data <? 16)%nat with false
  by (symmetry; apply Nat.ltb_ge; lia).
rewrite <- Hiv, drop_app_length. reflexivity.
Qed.

Definition stand_in_cipher : Fernet :=
  {| fernet_encrypt := stand_in_encrypt;
     fernet_decrypt := stand_in_decrypt;
     fernet_decrypt_encrypt := stand_in_law |}.

Section RoundTrip.

Context {cipher : Fernet}.

Ltac file_step :=
  unfold encrypt_file, decrypt_file, cipher_encrypt, cipher_decrypt, read_file,
    write_file, time_now, os_urandom, record, modify, bind, ret, raise; simpl.

(** C6. Obscuring a file and then revealing it leaves the bytes it held,
    for every byte sequence (the empty one included); both calls return
    normally and no other file changes. *)
Theorem encrypt_then_decrypt_restores (st : state) (path : string)
    (data : list byte) :
  disk st !! path = Some data ->
  exists st1 st2,
    encrypt_file path st = (Ok tt, st1) /\
    decrypt_file path st1 = (Ok tt, st2) /\
    disk st2 !! path = Some data /\
    forall other, other <> path -> disk st2 !! other = disk st !! other.
Proof.
intros Hfile. file_step. rewrite Hfile.
eexists _, _. split; [reflexivity|]. simpl.
rewrite lookup_insert_eq.
rewrite fernet_decrypt_encrypt by (rewrite ?length_fmap, ?length_seq; reflexivity).
rewrite Base64Facts.b64decode_b64encode. simpl.
split; [reflexivity|]. split.
- apply lookup_insert_eq.
- intros other Hne. simpl. now rewrite !lookup_insert_ne by congruence.
Qed.

End RoundTrip.

Lemma encrypt_then_decrypt_restores_witness :
  let data := list_byte_of_string "%PDF-1.7 patent A" in
  let st := machine PAT_init {[ "patentA.pdf" := data ]}
                    (service [] [] [] [] "queued" []) 0 in
  disk st !! "patentA.pdf" = Some data /\
  data <> [] /\
  exists st1 st2,
    @encrypt_file stand_in_cipher "patentA.pdf" st = (Ok tt, st1) /\
    @decrypt_file stand_in_cipher "patentA.pdf" st1 = (Ok tt, st2) /\
    disk st2 !! "patentA.pdf" = Some data /\
    forall other, other <> "patentA.pdf" -> disk st2 !! other = disk st !! other.
Proof.
intros data st.
assert (H : disk st !! "patentA.pdf" = Some data) by (vm_compute; reflexivity).
split; [exact H|]. split; [discriminate|].
exact (@encrypt_then_decrypt_restores stand_in_cipher st "patentA.pdf" data H).
Defined.

(** ** Uploading the tracked files *)

Section Upload.

Context {cipher : Fernet}.

Ltac file_step :=
  unfold encrypt_file, decrypt_file, cipher_encrypt, cipher_decrypt, files_create,
    read_file, write_file, time_now, os_urandom, append_patent_file, files_list,
    record, modify, bind, ret, gets, raise; simpl.

Lemma local_by_events (q : string) (st st' : state) (later : list event) :
  self st' = self st ->
  (forall p, p <> q -> disk st' !! p = disk st !! p) ->
  journal st' = journal st ++ later ->
  Forall (fun e => event_path e = Some q) later ->
  local_to q st st'.
Proof. intros Hs Hd Hj Hl. split; [exact Hs|]. split; [exact Hd|]. now exists later. Qed.

Lemma decrypt_file_local (q : string) (st : state) :
  local_to q st (snd (decrypt_file q st)).
Proof.
file_step.
destruct (disk st !! q) as [token|]; simpl;
  [destruct (fernet_decrypt token) as [text|]; simpl;
   [destruct (Base64.b64decode text) as [data|]; simpl|]|];
  apply (local_by_events q _ _ [DecryptFile q]); simpl;
  try reflexivity; try (intros p Hp; reflexivity);
  try (repeat constructor).
intros p Hp. now rewrite lookup_insert_ne by congruence.
Qed.

Lemma encrypt_file_local (q : string) (st : state) :
  local_to q st (snd (encrypt_file q st)).
Proof.
file_step.
destruct (disk st !! q) as [data|]; simpl;
  apply (local_by_events q _ _ [EncryptFile q]); simpl;
  try reflexivity; try (intros p Hp; reflexivity);
  try (repeat constructor).
intros p Hp. now rewrite lookup_insert_ne by congruence.
Qed.

Lemma files_create_local (q : string) (st : state) :
  local_to q st (snd (files_create q st)).
Proof.
file_step.
destruct (disk st !! q) as [data|]; simpl.
- destruct (take_file_id (remote st)) as [[i r]|]; simpl;
    apply (local_by_events q _ _ [FilesCreate q data]); simpl;
    try reflexivity; try (intros p Hp; reflexivity); repeat constructor.
- apply (local_by_events q _ _ []); simpl;
    try reflexivity; try (intros p Hp; reflexivity); try constructor.
  now rewrite app_nil_r.
Qed.

Lemma spares_refl (path : string) (st : state) : spares path st st.
Proof.
split; [reflexivity|]. exists []. split; [now rewrite app_nil_r | constructor].
Qed.

Lemma spares_trans (path : string) (st1 st2 st3 : state) :
  spares path st1 st2 -> spares path st2 st3 -> spares path st1 st3.
Proof.
intros [Hd1 (l1 & Hj1 & Hl1)] [Hd2 (l2 & Hj2 & Hl2)].
split; [congruence|]. exists (l1 ++ l2).
split; [now rewrite Hj2, Hj1, app_assoc | now apply Forall_app].
Qed.

Lemma local_spares (path q : string) (st st' : state) :
  q <> path -> local_to q st st' -> spares path st st'.
Proof.
intros Hne (_ & Hd & later & Hj & Hl).
split; [apply Hd; congruence|]. exists later. split; [exact Hj|].
eapply Forall_impl; [exact Hl|]. intros e He. simpl in *. rewrite He. congruence.
Qed.

Lemma with_self_spares (path : string) (f : PAT -> PAT) (st : state) :
  spares path st (with_self f st).
Proof. split; [reflexivity|]. exists []. split; [simpl; now rewrite app_nil_r | constructor]. Qed.

Lemma upload_one_spares (existing : list file_object) (path q : string)
    (file : file_object) (st : state) :
  find (fun f => String.eqb (filename f) (basename path)) existing = Some file ->
  spares path st (snd (upload_one existing q st)).
Proof.
intros Hknown. unfold upload_one.
destruct (find (fun f => String.eqb (filename f) (basename q)) existing) eqn:E.
{ apply with_self_spares. }
assert (Hne : q <> path) by (intros ->; congruence).
unfold bind.
pose proof (local_spares path q _ _ Hne (decrypt_file_local q st)) as H1.
destruct (decrypt_file q st) as [[[]| |] s1]; simpl in *; try exact H1.
pose proof (local_spares path q _ _ Hne (files_create_local q s1)) as H2.
destruct (files_create q s1) as [[i| |] s2]; simpl in *;
  try exact (spares_trans _ _ _ _ H1 H2).
unfold append_patent_file, modify.
pose proof (local_spares path q _ _ Hne
              (encrypt_file_local q
                 (with_self (fun p => set_patent_files_field (patent_files p ++ [i]) p) s2)))
  as H3.
pose proof (spares_trans _ _ _ _ (spares_trans _ _ _ _ H1 H2)
              (spares_trans _ _ _ _ (with_self_spares path _ s2) H3)) as H.
destruct (encrypt_file q _) as [[[]| |] s3]; exact H.
Qed.

Lemma upload_one_files (existing : list file_object) (q : string)
    (st st' : state) :
  upload_one existing q st = (Ok tt, st') ->
  patent_file_names (self st') = patent_file_names (self st) /\
  exists i,
    patent_files (self st') = patent_files (self st) ++ [i] /\
    forall file,
      find (fun f => String.eqb (filename f) (basename q)) existing = Some file ->
      i = file_id file.
Proof.
unfold upload_one.
destruct (find (fun f => String.eqb (filename f) (basename q)) existing) eqn:E.
{ intros [= <-]. split; [reflexivity|]. eexists. split; [reflexivity|].
  now intros file [= <-]. }
unfold bind.
pose proof (decrypt_file_local q st) as (S1 & _).
destruct (decrypt_file q st) as [[[]| |] s1]; simpl in *; try discriminate.
pose proof (files_create_local q s1) as (S2 & _).
destruct (files_create q s1) as [[i| |] s2]; simpl in *; try discriminate.
unfold append_patent_file, modify.
pose proof (encrypt_file_local q
              (with_self (fun p => set_patent_files_field (patent_files p ++ [i]) p) s2))
  as (S3 & _).
destruct (encrypt_file q _) as [[[]| |] s3]; simpl in *; try discriminate.
intros [= <-]. rewrite S3. simpl. rewrite S2, S1.
split; [reflexivity|]. exists i. split; [reflexivity | discriminate].
Qed.

Lemma for_each_spares (path : string) (body : string -> M unit) :
  (forall q st, spares path st (snd (body q st))) ->
  forall names st, spares path st (snd (for_each names body st)).
Proof.
intros Hbody names. induction names as [|q names IH]; intros st.
- apply spares_refl.
- cbn [for_each]. unfold bind. pose proof (Hbody q st) as H.
  destruct (body q st) as [[[]| |] s1]; simpl in *; try exact H.
  exact (spares_trans _ _ _ _ H (IH s1)).
Qed.

Lemma for_each_files (existing : list file_object) (names : list string) :
  forall st st',
    for_each names (upload_one existing) st = (Ok tt, st') ->
    exists ids,
      patent_files (self st') = patent_files (self st) ++ ids /\
      length ids = length names /\
      forall (i : nat) q file,
        names !! i = Some q ->
        find (fun f => String.eqb (filename f) (basename q)) existing = Some file ->
        ids !! i = Some (file_id file).
Proof.
induction names as [|q names IH]; intros st st'.
- intros [= <-]. exists []. split; [now rewrite app_nil_r|].
  split; [reflexivity|]. intros i q' file Hi. now rewrite lookup_nil in Hi.
- cbn [for_each]. unfold bind.
  destruct (upload_one existing q st) as [[[]| |] s1] eqn:E1; try discriminate.
  intros Hrest. apply upload_one_files in E1 as (_ & x & Hx & Hid).
  apply IH in Hrest as (ids & Hids & Hlen & Hat).
  exists (x :: ids). split; [now rewrite Hids, Hx, <- app_assoc|].
  split; [simpl; now rewrite Hlen|].
  intros [|i] q' file Hi Hfind; simpl in *.
  + injection Hi as <-. now rewrite (Hid _ Hfind).
  + now apply (Hat i q').
Qed.

Lemma upload_one_grows (existing : list file_object) (q : string) (st : state) :
  exists ids,
    patent_files (self (snd (upload_one existing q st)))
    = patent_files (self st) ++ ids.
Proof.
unfold upload_one.
destruct (find (fun f => String.eqb (filename f) (basename q)) existing) eqn:E.
{ eexists. reflexivity. }
unfold bind.
pose proof (decrypt_file_local q st) as (S1 & _).
destruct (decrypt_file q st) as [[[]| |] s1]; simpl in *;
  try (exists []; now rewrite S1, app_nil_r).
pose proof (files_create_local q s1) as (S2 & _).
destruct (files_create q s1) as [[i| |] s2]; simpl in *;
  try (exists []; now rewrite S2, S1, app_nil_r).
unfold append_patent_file, modify.
pose proof (encrypt_file_local q
              (with_self (fun p => set_patent_files_field (patent_files p ++ [i]) p) s2))
  as (S3 & _).
exists [i].
destruct (encrypt_file q _) as [[[]| |] s3]; simpl in *;
  rewrite S3; simpl; now rewrite S2, S1.
Qed.

Lemma for_each_grows (existing : list file_object) (names : list string) :
  forall st,
    exists ids,
      patent_files (self (snd (for_each names (upload_one existing) st)))
      = patent_files (self st) ++ ids.
Proof.
induction names as [|q names IH]; intros st.
- exists []. simpl. now rewrite app_nil_r.
- cbn [for_each]. unfold bind.
  destruct (upload_one_grows existing q st) as (ids1 & H1).
  destruct (upload_one existing q st) as [[[]| |] s1]; simpl in *;
    try (now exists ids1).
  destruct (IH s1) as (ids2 & H2).
  exists (ids1 ++ ids2). now rewrite H2, H1, app_assoc.
Qed.

Lemma for_each_app {A} (before after : list A) (body : A -> M unit) (st : state) :
  for_each (before ++ after) body st
  = (for_each before body ;;; for_each after body) st.
Proof.
revert st. induction before as [|x before IH]; intros st.
- reflexivity.
- simpl. unfold bind in *. destruct (body x st) as [[[]| |] s1]; try reflexivity.
  apply IH.
Qed.

(** Once the loop has arrived at a known path, the id of the catalog's file
    is at the path's place in the list, whatever the later passes do. *)
Lemma for_each_reached (existing : list file_object) (names : list string)
    (i : nat) (path : string) (file : file_object) (s0 s1 : state) :
  names !! i = Some path ->
  find (fun f => String.eqb (filename f) (basename path)) existing = Some file ->
  for_each (take i names) (upload_one existing) s0 = (Ok tt, s1) ->
  patent_files (self (snd (for_each names (upload_one existing) s0)))
    !! (length (patent_files (self s0)) + i)%nat
  = Some (file_id file).
Proof.
intros Hi Hknown Hbefore.
assert (Hlt : (i < length names)%nat) by (apply lookup_lt_is_Some; eauto).
rewrite <- (take_drop_middle names i path Hi) at 1.
rewrite for_each_app. unfold bind at 1. rewrite Hbefore.
apply for_each_files in Hbefore as (ids & Hids & Hlen & _).
rewrite length_take in Hlen.
cbn [for_each]. unfold bind at 1. unfold upload_one at 1. rewrite Hknown.
unfold append_patent_file, modify.
match goal with
| |- context [for_each ?l _ ?s] =>
    destruct (for_each_grows existing l s) as (ids' & Hids')
end.
rewrite Hids'. simpl. rewrite Hids.
rewrite <- !app_assoc.
rewrite lookup_app_r by lia.
replace (length (patent_files (self s0)) + i - length (patent_files (self s0)))%nat
  with (length ids) by lia.
rewrite lookup_app_r by lia.
now replace (length ids - length ids)%nat with 0%nat by lia.
Qed.

(** The whole run returns only if its part before any path does. *)
Lemma upload_files_upto_returns (i : nat) (st : state) :
  fst (upload_files st) = Ok tt -> fst (upload_files_upto i st) = Ok tt.
Proof.
unfold upload_files, upload_files_upto, files_list, record, modify, bind, gets.
simpl.
rewrite <- (take_drop i (patent_file_names (self st))) at 1.
rewrite for_each_app. unfold bind.
destruct (for_each (take i _) _ _) as [[[]| |] s1]; simpl; try discriminate.
reflexivity.
Qed.

(** C4, as amended. A tracked path whose base name is the name of a file in
    the remote catalog is passed over: its bytes on disk stay as they are
    and no upload, decryption or encryption of it takes place, whatever
    happens to the other paths; and in every run whose loop arrives at the
    path (the passes for the paths before it returned), the id of the
    catalog's file is recorded at the path's place in the list, whatever
    happens to the paths after it. *)
Theorem upload_files_skips_known (st : state) (path : string)
    (file : file_object) (i : nat) :
  patent_file_names (self st) !! i = Some path ->
  find (fun f => String.eqb (filename f) (basename path)) (catalog (remote st))
    = Some file ->
  let st' := snd (upload_files st) in
  disk st' !! path = disk st !! path /\
  (exists later,
      journal st' = journal st ++ later /\
      (DecryptFile path ∉ later) /\ (EncryptFile path ∉ later) /\
      (forall content, FilesCreate path content ∉ later)) /\
  (fst (upload_files_upto i st) = Ok tt ->
   patent_files (self st') !! (length (patent_files (self st)) + i)%nat
   = Some (file_id file)).
Proof.
intros Hi Hknown st'.
assert (Hloop : forall s, spares path s
          (snd (for_each (patent_file_names (self st))
                  (upload_one (catalog (remote st))) s))).
{ apply for_each_spares. intros q s. now apply (upload_one_spares _ path q file). }
subst st'.
unfold upload_files, upload_files_upto, files_list, record, modify, bind, gets.
simpl.
set (s0 := with_journal (fun j => j ++ [FilesList]) st).
specialize (Hloop s0).
destruct Hloop as [Hdisk (later & Hj & Hl)].
pose proof (for_each_reached (catalog (remote st)) (patent_file_names (self st))
              i path file s0) as Hreached.
destruct (for_each (patent_file_names (self st)) _ s0) as [o s1] eqn:Eloop.
simpl in *.
split; [|split].
- destruct o; exact Hdisk.
- exists (FilesList :: later).
  split; [destruct o; simpl; rewrite Hj; now rewrite <- app_assoc|].
  assert (Hno : forall e, event_path e = Some path -> e ∉ FilesList :: later).
  { intros e He Hin. apply elem_of_cons in Hin as [->|Hin]; [discriminate|].
    rewrite Forall_forall in Hl. exact (Hl _ Hin He). }
  split; [apply Hno; reflexivity|]. split; [apply Hno; reflexivity|].
  intros content. apply Hno. reflexivity.
- destruct (for_each (take i _) _ s0) as [[[]| |] s2] eqn:Ebefore; simpl;
    try discriminate.
  intros _. specialize (Hreached s2 Hi Hknown eq_refl).
  destruct o; exact Hreached.
Qed.

End Upload.

Lemma upload_files_skips_known_witness :
  let known := mkFile "file-9" "patentA.pdf" in
  let st :=
    machine (mkPAT (PyInt 7731) None ["docs/patentA.pdf"; "gone.pdf"] [])
            {[ "docs/patentA.pdf" := list_byte_of_string "kept as it is" ]}
            (service [known] ["file-10"] [] [] "queued" []) 0 in
  let st' := snd (@upload_files stand_in_cipher st) in
  patent_file_names (self st) !! 0%nat = Some "docs/patentA.pdf" /\
  find (fun f => String.eqb (filename f) (basename "docs/patentA.pdf"))
       (catalog (remote st)) = Some known /\
  fst (@upload_files_upto stand_in_cipher 0 st) = Ok tt /\
  fst (@upload_files stand_in_cipher st) = Raise FileNotFoundError /\
  patent_files (self st') = ["file-9"] /\
  disk st' !! "docs/patentA.pdf" = disk st !! "docs/patentA.pdf" /\
  (exists later,
      journal st' = journal st ++ later /\
      (DecryptFile "docs/patentA.pdf" ∉ later) /\
      (EncryptFile "docs/patentA.pdf" ∉ later) /\
      (forall content, FilesCreate "docs/patentA.pdf" content ∉ later)) /\
  patent_files (self st') !! (length (patent_files (self st)) + 0)%nat
  = Some "file-9".
Proof.
intros known st st'.
assert (H1 : patent_file_names (self st) !! 0%nat = Some "docs/patentA.pdf")
  by reflexivity.
assert (H2 : find (fun f => String.eqb (filename f) (basename "docs/patentA.pdf"))
                  (catalog (remote st)) = Some known) by reflexivity.
assert (H3 : fst (@upload_files_upto stand_in_cipher 0 st) = Ok tt)
  by reflexivity.
split; [exact H1|]. split; [exact H2|]. split; [exact H3|].
split; [vm_compute; reflexivity|]. split; [vm_compute; reflexivity|].
destruct (@upload_files_skips_known stand_in_cipher st "docs/patentA.pdf" known 0
            H1 H2) as (Hdisk & Hjournal & Hid).
split; [exact Hdisk|]. split; [exact Hjournal|].
exact (Hid H3).
Defined.

(** C4 as stated fails for a path that the loop does not arrive at:
    [gone.pdf], tracked first, is neither in the catalog nor on disk, so the
    run ends with [FileNotFoundError] in its first pass, and the id of the
    catalog's [patentA.pdf], tracked second, is not recorded. The file is
    still untouched. *)
Lemma upload_files_unreached_counterexample :
  let known := mkFile "file-9" "patentA.pdf" in
  let st :=
    machine (mkPAT (PyInt 7731) None ["gone.pdf"; "docs/patentA.pdf"] [])
            {[ "docs/patentA.pdf" := list_byte_of_string "kept as it is" ]}
            (service [known] ["file-10"] [] [] "queued" []) 0 in
  let st' := snd (@upload_files stand_in_cipher st) in
  patent_file_names (self st) !! 1%nat = Some "docs/patentA.pdf" /\
  find (fun f => String.eqb (filename f) (basename "docs/patentA.pdf"))
       (catalog (remote st)) = Some known /\
  fst (@upload_files stand_in_cipher st) = Raise FileNotFoundError /\
  patent_files (self st') = [] /\
  journal st' = [FilesList; DecryptFile "gone.pdf"] /\
  disk st' = disk st.
Proof.
intros known st st'.
split; [reflexivity|]. split; [reflexivity|].
split; [vm_compute; reflexivity|]. split; [vm_compute; reflexivity|].
split; vm_compute; reflexivity.
Qed.

(** * Further properties *)

(** ** More on the response extractor *)

Section ExtractorMore.
Import Text TextFacts Re ReFacts ExtractorFacts PyIntFacts.

Lemma match_group_at_end (g : string) :
  g <> "" -> all (not_char "%") g = true ->
  match_here [group (plus (not_char "%")); opt (is_char "%")] g
  = Some (Some g, String.length g).
Proof.
intros Hg Hall.
assert (H : match_here [group (plus (not_char "%")); opt (is_char "%")] (g +:+ "")
            = Some (Some g, String.length g)).
{ rewrite match_here_cons.
  cbn [group plus accepts at_least at_most captures].
  rewrite run_class by (exact Hall || reflexivity).
  destruct (Nat.ltb_spec (String.length g) 1) as [Hlt|_].
  { destruct g; [congruence | simpl in Hlt; lia]. }
  apply back_off_hit.
  rewrite skip_app, first_app. simpl. now rewrite Nat.add_0_r. }
now rewrite app_nil_r in H.
Qed.

Lemma match_value_at_end (ws g : string) :
  all filler ws = true ->
  g <> "" -> stops filler g = true -> all (not_char "%") g = true ->
  match_here
    [ star filler; star (is_char "010");
      group (plus (not_char "%")); opt (is_char "%") ]
    (ws +:+ g)
  = Some (Some g, (String.length ws + String.length g)%nat).
Proof.
intros Hws Hg Hstop Hall.
assert (Hnl : stops (is_char "010") g = true).
{ destruct g as [|c g]; [congruence|].
  unfold stops in *. apply negb_true_iff, filler_newline.
  now apply negb_true_iff. }
rewrite match_here_cons.
cbn [star accepts at_least at_most captures].
rewrite run_class by assumption.
replace (String.length ws <? 0)%nat with false by (symmetry; apply Nat.ltb_ge; lia).
apply back_off_hit. rewrite skip_app.
rewrite match_here_cons.
cbn [star accepts at_least at_most captures].
rewrite (run_stops _ _ Hnl).
cbn [Nat.ltb Nat.leb back_off]. rewrite skip_0.
rewrite (match_group_at_end g Hg Hall). reflexivity.
Qed.

Lemma search_first_marker_at_end (pre ws g : string) :
  contains marker pre = false ->
  all filler ws = true ->
  g <> "" -> stops filler g = true -> all (not_char "%") g = true ->
  search percentage_pattern (pre +:+ marker +:+ ws +:+ g)
  = Some (String.length pre, Some g, (33 + (String.length ws + String.length g))%nat)
  /\ sub_empty percentage_pattern (pre +:+ marker +:+ ws +:+ g) = pre.
Proof.
intros Hpre Hws Hg Hstop Hall.
pose proof (quiet_before_marker pre (ws +:+ g) Hpre) as Hq.
assert (Hm : match_here percentage_pattern (marker +:+ ws +:+ g)
             = Some (Some g, (33 + (String.length ws + String.length g))%nat)).
{ unfold percentage_pattern. rewrite match_here_literal, prefix_app, skip_app.
  rewrite (match_value_at_end ws g Hws Hg Hstop Hall). reflexivity. }
split.
- unfold search. rewrite (search_from_quiet _ _ _ _ Hq).
  apply (search_from_hit _ _ _ _ _ Hm).
- unfold sub_empty. rewrite (cut_from_quiet _ _ _ Hq).
  rewrite <- (app_nil_r pre) at 2. f_equal.
  rewrite (cut_from_match _ _ _ _ Hm).
  transitivity
    (cut_from percentage_pattern 0
       (skip (String.length g) (skip (String.length ws)
          (skip (String.length marker) (marker +:+ ws +:+ g))))).
  + rewrite !skip_skip. reflexivity.
  + rewrite !skip_app. rewrite <- (app_nil_r g) at 2. rewrite skip_app. reflexivity.
Qed.

(** X1. The captured value runs from the first character after the filler to
    the next percent sign, or to the end of the reply when there is none.
    The call returns the integer that this text, stripped, denotes and the
    cleaned message; it raises [ValueError] exactly when the text denotes
    no integer. *)
Theorem extractor_reads_to_percent (pre ws g post : string) :
  contains marker pre = false ->
  all filler ws = true ->
  g <> "" -> stops filler g = true -> all (not_char "%") g = true ->
  get_context_similarity_percentage (pre +:+ marker +:+ ws +:+ g +:+ "%" +:+ post)
  = match PyInt.int (strip g) with
    | Some z => Ok (strip (pre +:+ sub_empty percentage_pattern post), Some z)
    | None => Raise ValueError
    end
  /\ get_context_similarity_percentage (pre +:+ marker +:+ ws +:+ g)
     = match PyInt.int (strip g) with
       | Some z => Ok (strip pre, Some z)
       | None => Raise ValueError
       end.
Proof.
intros Hpre Hws Hg Hstop Hall. split.
- change ("%" +:+ post) with (String "%" post).
  destruct (search_first_marker pre ws g post Hpre Hws Hg Hstop Hall) as [Hs Hc].
  unfold get_context_similarity_percentage. rewrite Hs, Hc. reflexivity.
- destruct (search_first_marker_at_end pre ws g Hpre Hws Hg Hstop Hall) as [Hs Hc].
  unfold get_context_similarity_percentage. rewrite Hs, Hc. reflexivity.
Qed.

End ExtractorMore.

Lemma extractor_reads_to_percent_witness :
  Text.contains marker "Thoughts. " = false /\
  Text.all filler " * " = true /\
  "85 " <> "" /\
  Text.stops filler "85 " = true /\
  Text.all (Re.not_char "%") "85 " = true /\
  get_context_similarity_percentage
    ("Thoughts. " +:+ marker +:+ " * " +:+ "85 " +:+ "%" +:+ " Bye.")
  = match PyInt.int (Text.strip "85 ") with
    | Some z =>
        Ok (Text.strip ("Thoughts. " +:+ Re.sub_empty percentage_pattern " Bye."),
            Some z)
    | None => Raise ValueError
    end
  /\ get_context_similarity_percentage ("Thoughts. " +:+ marker +:+ " * " +:+ "85 ")
     = match PyInt.int (Text.strip "85 ") with
       | Some z => Ok (Text.strip "Thoughts. ", Some z)
       | None => Raise ValueError
       end.
Proof.
assert (H1 : Text.contains marker "Thoughts. " = false) by reflexivity.
assert (H2 : Text.all filler " * " = true) by reflexivity.
assert (H3 : "85 " <> "") by discriminate.
assert (H4 : Text.stops filler "85 " = true) by reflexivity.
assert (H5 : Text.all (Re.not_char "%") "85 " = true) by reflexivity.
split; [exact H1|]. split; [exact H2|]. split; [exact H3|].
split; [exact H4|]. split; [exact H5|].
exact (extractor_reads_to_percent "Thoughts. " " * " "85 " " Bye." H1 H2 H3 H4 H5).
Defined.

Section ExtractorEdges.
Import Text TextFacts Re ReFacts ExtractorFacts PyIntFacts.

(** X2. No clamping: whatever integer follows the first marker, negative or
    above 100, comes back as it is written. *)
Theorem extractor_returns_any_integer (pre ws post : string) (z : Z) :
  contains marker pre = false ->
  all filler ws = true ->
  (String.length (pretty z) <= PyInt.int_max_str_digits)%nat ->
  get_context_similarity_percentage
    (pre +:+ marker +:+ ws +:+ pretty z +:+ "%" +:+ post)
  = Ok (strip (pre +:+ sub_empty percentage_pattern post), Some z).
Proof.
intros Hpre Hws Hlen.
destruct (pretty_Z_value z Hlen) as (Hne & Hstop & Hall & Hint).
change ("%" +:+ post) with (String "%" post).
destruct (search_first_marker pre ws (pretty z) post Hpre Hws Hne Hstop Hall)
  as [Hs Hc].
unfold get_context_similarity_percentage. rewrite Hs, Hc, Hint. reflexivity.
Qed.

End ExtractorEdges.

Lemma extractor_returns_any_integer_witness :
  Text.contains marker "a " = false /\
  Text.all filler " " = true /\
  (String.length (pretty (-250)%Z) <= PyInt.int_max_str_digits)%nat /\
  get_context_similarity_percentage
    ("a " +:+ marker +:+ " " +:+ pretty (-250)%Z +:+ "%" +:+ " b")
  = Ok (Text.strip ("a " +:+ Re.sub_empty percentage_pattern " b"), Some (-250)).
Proof.
assert (H1 : Text.contains marker "a " = false) by reflexivity.
assert (H2 : Text.all filler " " = true) by reflexivity.
assert (H3 : (String.length (pretty (-250)%Z) <= PyInt.int_max_str_digits)%nat)
  by (vm_compute; lia).
split; [exact H1|]. split; [exact H2|]. split; [exact H3|].
exact (extractor_returns_any_integer "a " " " " b" (-250) H1 H2 H3).
Defined.

Section ExtractorSilent.
Import Text TextFacts Re ReFacts ExtractorFacts PyIntFacts.

Lemma skip_app_le (k : nat) (a b : string) :
  (k <= String.length a)%nat -> skip k (a +:+ b) = skip k a +:+ b.
Proof.
revert a; induction k as [|k IH]; intros a Hk.
- now rewrite !skip_0.
- destruct a as [|c a]; simpl in Hk; [lia|].
  rewrite app_cons. simpl. apply IH. lia.
Qed.

Lemma skip_app_ge (k : nat) (a b : string) :
  (String.length a <= k)%nat -> skip k (a +:+ b) = skip (k - String.length a) b.
Proof.
intros Hk.
replace k with (String.length a + (k - String.length a))%nat at 1 by lia.
now rewrite <- skip_skip, skip_app.
Qed.

Lemma prefix_over_app_l (m b x : string) :
  String.prefix m (b +:+ x) = true ->
  (String.length b <= String.length m)%nat ->
  String.prefix b m = true.
Proof.
revert b; induction m as [|c m IH]; intros b H Hlen.
- destruct b; [reflexivity | simpl in Hlen; lia].
- destruct b as [|d b]; [reflexivity|].
  rewrite app_cons in H. simpl in H, Hlen. simpl.
  destruct (ascii_dec c d) as [->|]; [|discriminate].
  destruct (ascii_dec d d); [|congruence].
  apply IH; [exact H | lia].
Qed.

Lemma no_match_inside_marker (k : nat) (tail : string) :
  (1 <= k < 33)%nat ->
  match_here percentage_pattern (skip k marker +:+ tail) = None.
Proof.
intros Hk. apply match_needs_marker.
destruct (String.prefix marker (skip k marker +:+ tail)) eqn:E; [|reflexivity].
apply prefix_over_app_l in E; [|rewrite length_skip; lia].
now rewrite marker_no_overlap in E.
Qed.

Lemma no_match_at_bare_marker (tail : string) :
  tail = "" \/ String.prefix "%" tail = true ->
  match_here percentage_pattern (marker +:+ tail) = None.
Proof.
intros Htail. unfold percentage_pattern.
rewrite match_here_literal, prefix_app, skip_app.
destruct Htail as [->|H]; [reflexivity|].
destruct tail as [|c tail]; [discriminate H|].
change (String.prefix "%" (String c tail))
  with (if ascii_dec "%" c then String.prefix "" tail else false) in H.
destruct (ascii_dec "%" c) as [<-|]; [|discriminate H].
reflexivity.
Qed.

(** X3. A marker with nothing after it, or with the percent sign right after
    it, is no match: when the reply holds no other marker the call does not
    raise, and returns the stripped reply with no percentage. *)
Theorem extractor_marker_without_value (pre tail : string) :
  contains marker pre = false ->
  contains marker tail = false ->
  tail = "" \/ String.prefix "%" tail = true ->
  get_context_similarity_percentage (pre +:+ marker +:+ tail)
  = Ok (strip (pre +:+ marker +:+ tail), None).
Proof.
intros Hpre Htail Hbare.
pose proof (quiet_before_marker pre tail Hpre) as Hq.
unfold get_context_similarity_percentage, search.
rewrite (search_from_quiet _ _ _ _ Hq).
rewrite search_from_none; [reflexivity|].
intros k.
destruct (Nat.eq_dec k 0%nat) as [->|Hk0].
{ rewrite skip_0. now apply no_match_at_bare_marker. }
destruct (Nat.lt_ge_cases k 33%nat) as [Hlt|Hge].
- rewrite skip_app_le by (rewrite marker_length; lia).
  apply no_match_inside_marker. lia.
- rewrite skip_app_ge by (rewrite marker_length; lia).
  now apply no_marker_no_match.
Qed.

Lemma lstrip_of_stops_after ws (s : string) : stops ws (lstrip_of ws s) = true.
Proof.
induction s as [|c s IH]; [reflexivity|]. simpl.
destruct (ws c) eqn:E; [exact IH|]. simpl. now rewrite E.
Qed.

Lemma rstrip_of_keeps_head ws (s : string) :
  stops ws s = true -> stops ws (rstrip_of ws s) = true.
Proof.
destruct s as [|c s]; [reflexivity|]. simpl. intros H.
apply negb_true_iff in H.
destruct (rstrip_of ws s); rewrite ?H; simpl; now rewrite H.
Qed.

Lemma rstrip_of_twice ws (s : string) :
  rstrip_of ws (rstrip_of ws s) = rstrip_of ws s.
Proof.
induction s as [|c s IH]; [reflexivity|]. simpl.
destruct (rstrip_of ws s) as [|d r] eqn:E.
- destruct (ws c) eqn:Ec; [reflexivity|]. simpl. now rewrite Ec.
- change (rstrip_of ws (String c (String d r)))
    with (match rstrip_of ws (String d r) with
          | EmptyString => if ws c then "" else String c ""
          | x => String c x
          end).
  now rewrite IH.
Qed.

Lemma strip_twice (s : string) : strip (strip s) = strip s.
Proof.
unfold strip.
rewrite (lstrip_of_stops is_space (rstrip_of is_space (lstrip_of is_space s)))
  by apply rstrip_of_keeps_head, lstrip_of_stops_after.
apply rstrip_of_twice.
Qed.

(** X4. Whatever the reply, the text that comes back neither starts nor ends
    with white space: stripping it again changes nothing. *)
Theorem extractor_text_is_stripped (message text : string) (p : option Z) :
  get_context_similarity_percentage message = Ok (text, p) ->
  strip text = text /\ stops is_space text = true.
Proof.
unfold get_context_similarity_percentage.
assert (H : forall s, strip (strip s) = strip s /\ stops is_space (strip s) = true).
{ intros s. split; [apply strip_twice|].
  apply rstrip_of_keeps_head, lstrip_of_stops_after. }
destruct (search percentage_pattern message) as [[[i [g|]] n]|];
  [destruct (PyInt.int (strip g))| |]; intros [= <- <-] || discriminate; apply H.
Qed.

End ExtractorSilent.

Lemma extractor_marker_without_value_witness :
  Text.contains marker "No number: " = false /\
  Text.contains marker "% unknown" = false /\
  ("% unknown" = "" \/ String.prefix "%" "% unknown" = true) /\
  get_context_similarity_percentage ("No number: " +:+ marker +:+ "% unknown")
  = Ok (Text.strip ("No number: " +:+ marker +:+ "% unknown"), None).
Proof.
assert (H1 : Text.contains marker "No number: " = false) by reflexivity.
assert (H2 : Text.contains marker "% unknown" = false) by reflexivity.
assert (H3 : "% unknown" = "" \/ String.prefix "%" "% unknown" = true)
  by (right; reflexivity).
split; [exact H1|]. split; [exact H2|]. split; [exact H3|].
exact (extractor_marker_without_value "No number: " "% unknown" H1 H2 H3).
Defined.

Lemma extractor_text_is_stripped_witness :
  get_context_similarity_percentage "  3. Context Similarity Percentage: 42% ok  "
  = Ok ("ok", Some 42) /\
  Text.strip "ok" = "ok" /\ Text.stops Text.is_space "ok" = true.
Proof.
assert (H : get_context_similarity_percentage
              "  3. Context Similarity Percentage: 42% ok  " = Ok ("ok", Some 42))
  by (vm_compute; reflexivity).
split; [exact H|].
exact (extractor_text_is_stripped _ "ok" (Some 42) H).
Defined.

(** ** More on the table of threads *)

Section ThreadsMore.

#[local] Arguments bind_text : simpl never.

Ltac db_step :=
  unfold check_if_thread_exist, select_thread_id, threads_create,
    insert_thread, lift, record, modify, bind, ret, gets, raise; simpl.

Lemma find_null_misses (rows : list row) :
  find (fun r => sql_eq (row_chat_id r) None) rows = None.
Proof.
induction rows as [|r rows IH]; [reflexivity|]. simpl.
destruct (row_chat_id r); exact IH.
Qed.

(** X5. A session without a chat id never finds its thread again: the lookup
    of [None] compares with NULL and misses whatever the table holds, so
    two calls in a row create two threads and store two rows. *)
Theorem check_if_thread_exist_none_creates_each_time
    (st : state) (t1 t2 : string) (more : list string) :
  chat_id (self st) = PyNone ->
  next_thread_ids (remote st) = t1 :: t2 :: more ->
  existsb (fun r => String.eqb (row_thread_id r) t1) (threads st) = false ->
  existsb (fun r => String.eqb (row_thread_id r) t2) (threads st) = false ->
  t1 <> t2 ->
  exists st1 st2,
    check_if_thread_exist (chat_id (self st)) st = (Ok t1, st1) /\
    check_if_thread_exist (chat_id (self st1)) st1 = (Ok t2, st2) /\
    threads st2 = threads st ++ [mkRow None t1; mkRow None t2].
Proof.
intros Hnone Hids H1 H2 Hne.
db_step. rewrite Hnone. unfold bind_text. simpl.
rewrite find_null_misses. simpl.
unfold take_thread_id. rewrite Hids. simpl. rewrite Hnone, H1. simpl.
eexists _, _. split; [reflexivity|]. simpl.
rewrite Hnone. simpl. rewrite find_null_misses. simpl.
rewrite Hnone. rewrite existsb_app, H2. simpl.
apply String.eqb_neq in Hne. rewrite Hne. simpl.
split; [reflexivity|]. simpl. now rewrite <- app_assoc.
Qed.

Lemma existsb_thread_id (rows : list row) (t : string) :
  existsb (fun r => String.eqb (row_thread_id r) t) rows = false ->
  t ∉ row_thread_id <$> rows.
Proof.
induction rows as [|r rows IH]; simpl; intros H Hin.
- now apply elem_of_nil in Hin.
- apply orb_false_iff in H as [Hr H].
  apply elem_of_cons in Hin as [->|Hin]; [now rewrite String.eqb_refl in Hr|].
  now apply IH.
Qed.

(** X6. The primary key holds: whatever the argument, the remote answer and
    the outcome, a table without two rows of the same thread id stays so. *)
Theorem check_if_thread_exist_keeps_key (chat_id_arg : pyval) (st : state) :
  NoDup (row_thread_id <$> threads st) ->
  NoDup (row_thread_id <$> threads (snd (check_if_thread_exist chat_id_arg st))).
Proof.
intros Hkey. db_step.
destruct (bind_text chat_id_arg) as [parameter| |]; simpl; try exact Hkey.
destruct (find _ (threads st)); simpl; try exact Hkey.
destruct (take_thread_id (remote st)) as [[i r]|]; simpl; try exact Hkey.
destruct (bind_text (chat_id (self st))) as [stored| |]; simpl; try exact Hkey.
destruct (existsb _ (threads st)) eqn:E; simpl; try exact Hkey.
rewrite fmap_app. simpl. apply NoDup_app. split; [exact Hkey|].
split; [|apply NoDup_singleton].
intros x Hx Hin. apply list_elem_of_singleton in Hin as ->.
now apply (existsb_thread_id _ _ E).
Qed.

(** X7. A lookup that inserts nothing found its answer in the table: the row
    it returns was stored under the very text of the argument, and the
    state is as before. For integer chat ids the text is the numeral, so a
    row stored for another integer is never returned. *)
Theorem check_if_thread_exist_hit_is_own_row
    (chat_id_arg : pyval) (st st' : state) (thread_id : string) :
  check_if_thread_exist chat_id_arg st = (Ok thread_id, st') ->
  threads st' = threads st ->
  st' = st /\
  exists text,
    bind_text chat_id_arg = Ok (Some text) /\
    mkRow (Some text) thread_id ∈ threads st /\
    (forall a b, chat_id_arg = PyInt a -> text = pretty b -> a = b).
Proof.
db_step.
destruct (bind_text chat_id_arg) as [parameter| |] eqn:Hb; simpl; try discriminate.
destruct (find _ (threads st)) as [r|] eqn:Hfind; simpl.
- intros [= <- <-] _. split; [reflexivity|].
  apply find_some in Hfind as [Hin Heq].
  destruct r as [[c|] t]; destruct parameter as [text|]; simpl in *; try discriminate.
  apply String.eqb_eq in Heq as ->.
  exists text. split; [reflexivity|]. split; [now apply list_elem_of_In|].
  intros a b -> ->. unfold bind_text in Hb.
  destruct ((- 2 ^ 63 <=? a) && (a <? 2 ^ 63)); [|discriminate].
  injection Hb as Hb. now apply (inj pretty) in Hb.
- destruct (take_thread_id (remote st)) as [[i r]|]; simpl; try discriminate.
  destruct (bind_text (chat_id (self st))) as [stored| |]; simpl; try discriminate.
  destruct (existsb _ (threads st)); simpl; try discriminate.
  intros [= <- <-]. simpl. intros Hsame.
  apply (f_equal length) in Hsame. rewrite length_app in Hsame. simpl in Hsame. lia.
Qed.

(** X8. The mapping outlives a reset: a thread found or made for the session's
    chat id is found again under that id after [reset_pat_chat], with no
    new thread and no change to the table. *)
Theorem thread_outlives_reset (st st1 : state) (text thread_id : string) :
  bind_text (chat_id (self st)) = Ok (Some text) ->
  check_if_thread_exist (chat_id (self st)) st = (Ok thread_id, st1) ->
  let st2 := snd (reset_pat_chat st1) in
  chat_id (self st2) = PyNone /\
  check_if_thread_exist (chat_id (self st)) st2 = (Ok thread_id, st2).
Proof.
intros Hown Hcall st2. split; [reflexivity|].
assert (Hrow : find (fun r => sql_eq (row_chat_id r) (Some text)) (threads st1)
               <> None /\
               row_thread_id <$> find (fun r => sql_eq (row_chat_id r) (Some text))
                                      (threads st1) = Some thread_id).
{ revert Hcall. db_step. rewrite Hown.
  destruct (find _ (threads st)) as [r|] eqn:Hfind; simpl.
  - intros [= <- <-]. rewrite Hfind. split; [discriminate | reflexivity].
  - destruct (take_thread_id (remote st)) as [[i r]|]; [|discriminate]. simpl.
    rewrite Hown.
    destruct (existsb _ (threads st)); [discriminate|].
    intros [= <- <-]. simpl.
    assert (Hnew : find (fun r0 => sql_eq (row_chat_id r0) (Some text))
                     (threads st ++ [mkRow (Some text) i])
                   = Some (mkRow (Some text) i)).
    { clear -Hfind. induction (threads st) as [|y l IH]; simpl in *.
      - now rewrite String.eqb_refl.
      - destruct (sql_eq (row_chat_id y) (Some text)); [discriminate | now apply IH]. }
    rewrite Hnew. split; [discriminate | reflexivity]. }
destruct Hrow as [_ Hrow].
subst st2. db_step. rewrite Hown. simpl.
destruct (find _ (threads st1)) as [r|]; [|discriminate Hrow].
simpl in *. now injection Hrow as ->.
Qed.

End ThreadsMore.

Lemma check_if_thread_exist_none_creates_each_time_witness :
  let st := machine PAT_init ∅
                    (service [] [] ["thread_a"; "thread_b"] [] "queued" []) 0 in
  chat_id (self st) = PyNone /\
  next_thread_ids (remote st) = ["thread_a"; "thread_b"] /\
  "thread_a" <> "thread_b" /\
  exists st1 st2,
    check_if_thread_exist (chat_id (self st)) st = (Ok "thread_a", st1) /\
    check_if_thread_exist (chat_id (self st1)) st1 = (Ok "thread_b", st2) /\
    threads st2 = threads st ++ [mkRow None "thread_a"; mkRow None "thread_b"].
Proof.
intros st.
assert (H1 : chat_id (self st) = PyNone) by reflexivity.
assert (H2 : next_thread_ids (remote st) = ["thread_a"; "thread_b"]) by reflexivity.
assert (H3 : "thread_a" <> "thread_b") by discriminate.
split; [exact H1|]. split; [exact H2|]. split; [exact H3|].
exact (check_if_thread_exist_none_creates_each_time
         st "thread_a" "thread_b" [] H1 H2 eq_refl eq_refl H3).
Defined.

Lemma check_if_thread_exist_keeps_key_witness :
  let st := with_threads (fun _ => [mkRow (Some "7731") "thread_a"])
              (machine (mkPAT (PyInt 2000) None [] []) ∅
                       (service [] [] ["thread_b"] [] "queued" []) 0) in
  NoDup (row_thread_id <$> threads st) /\
  fst (check_if_thread_exist (PyInt 1000) st) = Ok "thread_b" /\
  NoDup (row_thread_id <$> threads (snd (check_if_thread_exist (PyInt 1000) st))).
Proof.
intros st.
assert (H : NoDup (row_thread_id <$> threads st)).
{ simpl. apply NoDup_singleton. }
split; [exact H|]. split; [vm_compute; reflexivity|].
exact (check_if_thread_exist_keeps_key (PyInt 1000) st H).
Defined.

Lemma check_if_thread_exist_hit_is_own_row_witness :
  let st := with_threads (fun _ => [mkRow (Some "1000") "thread_z";
                                    mkRow (Some "7731") "thread_a"])
              (machine (mkPAT (PyInt 2000) None [] []) ∅
                       (service [] [] ["thread_b"] [] "queued" []) 0) in
  check_if_thread_exist (PyInt 7731) st = (Ok "thread_a", st) /\
  threads st = threads st /\
  (st = st /\
   exists text,
     bind_text (PyInt 7731) = Ok (Some text) /\
     mkRow (Some text) "thread_a" ∈ threads st /\
     (forall a b, PyInt 7731 = PyInt a -> text = pretty b -> a = b)).
Proof.
intros st.
assert (H1 : check_if_thread_exist (PyInt 7731) st = (Ok "thread_a", st))
  by (vm_compute; reflexivity).
split; [exact H1|]. split; [reflexivity|].
exact (check_if_thread_exist_hit_is_own_row (PyInt 7731) st st "thread_a" H1 eq_refl).
Defined.

Lemma thread_outlives_reset_witness :
  let st := machine (mkPAT (PyInt 7731) (Some "asst_1") ["a.pdf"] ["file-1"]) ∅
                    (service [] [] ["thread_a"; "thread_b"] [] "queued" []) 0 in
  let st1 := snd (check_if_thread_exist (chat_id (self st)) st) in
  let st2 := snd (reset_pat_chat st1) in
  bind_text (chat_id (self st)) = Ok (Some "7731") /\
  check_if_thread_exist (chat_id (self st)) st = (Ok "thread_a", st1) /\
  chat_id (self st2) = PyNone /\
  check_if_thread_exist (chat_id (self st)) st2 = (Ok "thread_a", st2).
Proof.
intros st st1 st2.
assert (H1 : bind_text (chat_id (self st)) = Ok (Some "7731"))
  by (vm_compute; reflexivity).
assert (H2 : check_if_thread_exist (chat_id (self st)) st = (Ok "thread_a", st1))
  by (vm_compute; reflexivity).
split; [exact H1|]. split; [exact H2|].
exact (thread_outlives_reset st st1 "7731" "thread_a" H1 H2).
Defined.

(** ** More on runs and responses *)

Section ResponsesMore.

#[local] Arguments bind_text : simpl never.
#[local] Arguments compare_prompt : simpl never.
#[local] Arguments get_context_similarity_percentage : simpl never.

Ltac step :=
  unfold runs_retrieve, runs_create, next_report, newest_message,
    messages_create, index, lift, record, modify, bind, still_waiting, ret,
    gets, raise; simpl.

(** With enough fuel, a run that completes after [m] more reports takes
    the loop through exactly [m] rounds, each of them a sleep and then a
    retrieval of the run held. *)
Lemma wait_completes (thread_id : string) (m : nat) :
  forall (fuel : nat) (run : run_object) (st : state),
    (m <= fuel)%nat ->
    completes_after m (run_reports (remote st)) (reported (remote st)) run ->
    exists run' st',
      wait_until_completed fuel thread_id run st = (Ok run', st') /\
      status run' = "completed" /\
      journal st'
      = journal st
        ++ rounds_for thread_id
             (polled m (run_reports (remote st)) (reported (remote st)) run) /\
      length (polled m (run_reports (remote st)) (reported (remote st)) run) = m /\
      self st' = self st /\
      reported (remote st') = (reported (remote st) + m)%nat /\
      next_replies (remote st') = next_replies (remote st).
Proof.
induction m as [|m IH]; intros fuel run st Hfuel Hrun; rewrite wait_unfold.
- simpl in Hrun. rewrite Hrun. simpl.
  exists run, st. rewrite app_nil_r, Nat.add_0_r. repeat split. exact Hrun.
- destruct Hrun as (Hnot & run' & Hrep & Hrest).
  apply String.eqb_neq in Hnot. rewrite Hnot. simpl negb. cbv iota.
  destruct fuel as [|fuel]; [lia|]. step. rewrite Hrep.
  match goal with
  | |- context [wait_until_completed fuel thread_id run' ?s] =>
      destruct (IH fuel run' s ltac:(lia) Hrest)
        as (r & s' & Hw & Hdone & Hj & Hlen & Hself & Hpos & Hreplies)
  end.
  exists r, s'.
  split; [exact Hw|]. split; [exact Hdone|].
  simpl in *. split; [rewrite Hj, <- !app_assoc; reflexivity|].
  split; [now rewrite Hlen|]. split; [exact Hself|]. split; [lia | exact Hreplies].
Qed.

(** X9. When the run completes after [m] polls and the fuel allows as many,
    [run_assistant] returns the newest message of the thread, and its
    journal is: one listing of the assistants, the creation of the run,
    then for each of the [m] runs held in turn a sleep and a retrieval of
    that run on the thread, then one listing of the messages. *)
Theorem run_assistant_returns_reply
    (m fuel : nat) (thread_id assistant_id text : string) (rest : list string)
    (run0 : run_object) (st : state) :
  assistant (self st) = Some assistant_id ->
  run_reports (remote st) (reported (remote st)) = Some run0 ->
  completes_after m (run_reports (remote st)) (S (reported (remote st))) run0 ->
  next_replies (remote st) = text :: rest ->
  (m <= fuel)%nat ->
  let runs := polled m (run_reports (remote st)) (S (reported (remote st))) run0 in
  exists st',
    run_assistant fuel thread_id st = (Ok text, st') /\
    journal st' = journal st ++ [AssistantsList; RunsCreate thread_id assistant_id]
                             ++ rounds_for thread_id runs
                             ++ [MessagesList thread_id] /\
    length runs = m /\
    reported (remote st') = (reported (remote st) + m + 1)%nat /\
    next_replies (remote st') = rest.
Proof.
intros Ha Hrep Hrun Hreplies Hfuel runs.
unfold run_assistant. step. rewrite Ha. step. rewrite Hrep.
match goal with
| |- context [wait_until_completed fuel thread_id run0 ?s] =>
    destruct (wait_completes thread_id m fuel run0 s Hfuel Hrun)
      as (r & s' & Hw & _ & Hj & Hlen & _ & Hpos & Hnext)
end.
rewrite Hw. simpl in *. rewrite Hnext, Hreplies.
eexists. split; [reflexivity|]. simpl.
split; [rewrite Hj, <- !app_assoc; reflexivity|].
split; [exact Hlen|]. split; [lia | reflexivity].
Qed.

(** X10. When the message is not rewritten (it is not the sentinel, or there
    is no percentage), it is appended to the thread as given, and what the
    run returns comes back: as it is, with no percentage, when the
    percentage is [None] (sentinel and marker included), and through the
    extractor otherwise, whose [ValueError] then ends the call. *)
Theorem generate_response_returns
    (fuel : nat) (st st1 st2 : state) (message_body : string) (percentage : pyval)
    (thread_id reply : string) :
  check_if_thread_exist (chat_id (self st)) st = (Ok thread_id, st1) ->
  message_body <> sentinel \/ percentage = PyNone ->
  run_assistant fuel thread_id
    (with_journal (fun j => j ++ [MessagesCreate thread_id "user" message_body]) st1)
  = (Ok reply, st2) ->
  generate_response fuel message_body percentage st
  = (if is_None percentage then Ok (reply, None)
     else get_context_similarity_percentage reply, st2).
Proof.
intros Hcheck Hplain Hrun.
unfold generate_response.
unfold bind at 1, gets at 1. unfold bind at 1. rewrite Hcheck.
assert (Hcond : String.eqb message_body sentinel && negb (is_None percentage) = false).
{ destruct Hplain as [Hne | ->]; [|apply andb_false_r].
  apply String.eqb_neq in Hne. now rewrite Hne. }
rewrite Hcond. unfold bind at 1, ret at 1.
unfold bind at 1, messages_create at 1, record at 1, modify at 1.
unfold bind at 1. rewrite Hrun.
destruct (is_None percentage); simpl; [reflexivity|].
unfold lift. reflexivity.
Qed.


End ResponsesMore.

Lemma run_assistant_returns_reply_witness :
  let st := machine (mkPAT (PyInt 7731) (Some "asst_1") [] []) ∅
                    (service [] [] [] ["queued"; "in_progress"] "completed"
                             ["Hello"; "older"]) 0 in
  let run0 := mkRun "run_1" "queued" in
  assistant (self st) = Some "asst_1" /\
  run_reports (remote st) (reported (remote st)) = Some run0 /\
  completes_after 2 (run_reports (remote st)) (S (reported (remote st))) run0 /\
  next_replies (remote st) = ["Hello"; "older"] /\
  (2 <= 5)%nat /\
  exists st',
    run_assistant 5 "thread_1" st = (Ok "Hello", st') /\
    journal st' = [AssistantsList; RunsCreate "thread_1" "asst_1";
                   Sleep; RunsRetrieve "thread_1" "run_1";
                   Sleep; RunsRetrieve "thread_1" "run_1";
                   MessagesList "thread_1"] /\
    reported (remote st') = 3%nat /\
    next_replies (remote st') = ["older"].
Proof.
intros st run0.
assert (H1 : assistant (self st) = Some "asst_1") by reflexivity.
assert (H2 : run_reports (remote st) (reported (remote st)) = Some run0)
  by reflexivity.
assert (H3 : completes_after 2 (run_reports (remote st))
               (S (reported (remote st))) run0).
{ simpl. split; [discriminate|]. eexists. split; [reflexivity|].
  split; [discriminate|]. eexists. split; reflexivity. }
assert (H4 : next_replies (remote st) = ["Hello"; "older"]) by reflexivity.
assert (H5 : (2 <= 5)%nat) by lia.
split; [exact H1|]. split; [exact H2|]. split; [exact H3|].
split; [exact H4|]. split; [exact H5|].
destruct (run_assistant_returns_reply 2 5 "thread_1" "asst_1" "Hello" ["older"]
            run0 st H1 H2 H3 H4 H5) as (st' & Hrun & Hjournal & _ & Hpos & Hnext).
exists st'. split; [exact Hrun|]. split; [exact Hjournal|].
split; [exact Hpos | exact Hnext].
Defined.

Lemma generate_response_returns_witness :
  let st := machine (mkPAT (PyInt 7731) (Some "asst_1") [] []) ∅
                    (service [] [] ["thread_1"] ["queued"] "completed"
                             ["3. Context Similarity Percentage: N/A"]) 0 in
  let st1 := snd (check_if_thread_exist (chat_id (self st)) st) in
  let sent := with_journal
                (fun j => j ++ [MessagesCreate "thread_1" "user" "How similar?"]) st1 in
  let st2 := snd (run_assistant 5 "thread_1" sent) in
  check_if_thread_exist (chat_id (self st)) st = (Ok "thread_1", st1) /\
  ("How similar?" <> sentinel \/ PyInt 83 = PyNone) /\
  run_assistant 5 "thread_1" sent
  = (Ok "3. Context Similarity Percentage: N/A", st2) /\
  generate_response 5 "How similar?" (PyInt 83) st
  = (if is_None (PyInt 83)
     then Ok ("3. Context Similarity Percentage: N/A", None)
     else get_context_similarity_percentage "3. Context Similarity Percentage: N/A",
     st2) /\
  get_context_similarity_percentage "3. Context Similarity Percentage: N/A"
  = Raise ValueError.
Proof.
intros st st1 sent st2.
assert (H1 : check_if_thread_exist (chat_id (self st)) st = (Ok "thread_1", st1))
  by (vm_compute; reflexivity).
assert (H2 : "How similar?" <> sentinel \/ PyInt 83 = PyNone)
  by (left; discriminate).
assert (H3 : run_assistant 5 "thread_1" sent
             = (Ok "3. Context Similarity Percentage: N/A", st2))
  by (vm_compute; reflexivity).
split; [exact H1|]. split; [exact H2|]. split; [exact H3|].
split; [|vm_compute; reflexivity].
exact (generate_response_returns 5 st st1 st2 "How similar?" (PyInt 83)
         "thread_1" "3. Context Similarity Percentage: N/A" H1 H2 H3).
Defined.


(** ** More on the session's fields *)

Section SessionMore.

Lemma track_loop (patents : list (list string)) :
  forall st,
    let result :=
      for_each patents (fun patent =>
        name <- index patent 0 ;;
        modify (with_self (fun p =>
          set_patent_file_names (patent_file_names p ++ [name]) p))) st in
    fst result
    = (if forallb (fun patent => negb (Nat.eqb (length patent) 0)) patents
       then Ok tt else Raise IndexError) /\
    patent_file_names (self (snd result))
    = patent_file_names (self st) ++ heads_until_empty patents /\
    patent_files (self (snd result)) = patent_files (self st) /\
    chat_id (self (snd result)) = chat_id (self st).
Proof.
match goal with |- context [for_each patents ?b] => set (body := b) end.
assert (Hnil : forall st, body [] st = (Raise IndexError, st)) by reflexivity.
assert (Hcons : forall name others st,
           body (name :: others) st
           = (Ok tt, with_self (fun p => set_patent_file_names
                                           (patent_file_names p ++ [name]) p) st))
  by reflexivity.
clearbody body.
induction patents as [|patent patents IH]; intros st result; subst result.
- simpl. rewrite app_nil_r. repeat split.
- cbn [for_each heads_until_empty forallb]. unfold bind.
  destruct patent as [|name others].
  + rewrite !Hnil. simpl. rewrite app_nil_r. repeat split.
  + rewrite !Hcons.
    match goal with
    | |- context [for_each patents body ?s] =>
        destruct (IH s) as (Ho & Hn & Hf & Hc);
        destruct (for_each patents body s) as [[[]| |] s'] eqn:E
    end; simpl in *;
      (split; [exact Ho|]; split; [rewrite Hn, <- app_assoc; reflexivity|];
       split; [exact Hf | exact Hc]).
Qed.

(** X12. [set_patent_files] only adds: the user's file and then the first
    component of each tuple go to the end of the tracked names, whatever is
    tracked already; the remote ids are not touched. An empty tuple ends
    the call with [IndexError], with the names before it already added. *)
Theorem set_patent_files_appends
    (patents : list (list string)) (user_patent_file : string) (st : state) :
  let result := set_patent_files patents user_patent_file st in
  fst result
  = (if forallb (fun patent => negb (Nat.eqb (length patent) 0)) patents
     then Ok tt else Raise IndexError) /\
  patent_file_names (self (snd result))
  = patent_file_names (self st) ++ user_patent_file :: heads_until_empty patents /\
  patent_files (self (snd result)) = patent_files (self st) /\
  chat_id (self (snd result)) = chat_id (self st).
Proof.
intros result. subst result.
pose proof (track_loop patents
              (with_self (fun p => set_patent_file_names
                                     (patent_file_names p ++ [user_patent_file]) p) st))
  as H.
cbv zeta in H. destruct H as (Ho & Hn & Hf & Hc).
unfold set_patent_files.
assert (E : forall (k : M unit),
           (modify (with_self (fun p => set_patent_file_names
                                          (patent_file_names p ++ [user_patent_file]) p))
            ;;; k) st
           = k (with_self (fun p => set_patent_file_names
                                      (patent_file_names p ++ [user_patent_file]) p) st)).
{ intros k. unfold bind, modify.
  destruct (k _) as [[[]| |] s']; reflexivity. }
rewrite E. split; [exact Ho|].
split; [rewrite Hn; simpl; rewrite <- app_assoc; reflexivity|].
split; [exact Hf | exact Hc].
Qed.

(** X13. After a reset the session is as new but for its assistant: the next
    [set_chat_id] draws a fresh id between 1000 and 9999 whatever the id
    was; the table of threads, the files, the remote service and the
    journal are as before the reset. *)
Theorem reset_then_set_chat_id (st : state) :
  exists n st',
    (reset_pat_chat ;;; set_chat_id) st = (Ok tt, st') /\
    self st' = mkPAT (PyInt n) (assistant (self st)) [] [] /\
    1000 <= n <= 9999 /\
    threads st' = threads st /\ disk st' = disk st /\
    remote st' = remote st /\ journal st' = journal st.
Proof.
unfold reset_pat_chat, set_chat_id, bind, gets, random_randint, modify. simpl.
eexists _, _. split; [reflexivity|]. simpl. split; [reflexivity|].
split; [|repeat split].
change (9999 - 1000 + 1) with 9000.
pose proof (Z.mod_pos_bound (Z.of_N (randbelow st (drawn st))) 9000 eq_refl).
lia.
Qed.

End SessionMore.

(** ** More on obscuring and revealing *)

Section ObscurerMore.

Context {cipher : Fernet}.

Ltac file_step :=
  unfold encrypt_file, decrypt_file, cipher_encrypt, cipher_decrypt, files_create,
    read_file, write_file, time_now, os_urandom, append_patent_file, files_list,
    record, modify, bind, ret, gets, raise; simpl.

(** X15. Obscuring twice needs revealing twice: after one reveal the file
    still holds a token, whose plaintext is the base64 text of the first
    token's; after the second it holds the original bytes. *)
Theorem obscure_twice_reveal_twice (st : state) (path : string) (data : list byte) :
  disk st !! path = Some data ->
  exists st1 st2 st3 st4 token,
    encrypt_file path st = (Ok tt, st1) /\
    encrypt_file path st1 = (Ok tt, st2) /\
    decrypt_file path st2 = (Ok tt, st3) /\
    disk st3 !! path = Some token /\
    disk st1 !! path = Some token /\
    fernet_decrypt token = Some (Base64.b64encode data) /\
    decrypt_file path st3 = (Ok tt, st4) /\
    disk st4 !! path = Some data.
Proof.
intros Hfile. file_step. rewrite Hfile.
eexists _, _. eexists _, _. eexists.
split; [reflexivity|]. simpl. rewrite lookup_insert_eq.
split; [reflexivity|]. simpl. rewrite lookup_insert_eq.
rewrite fernet_decrypt_encrypt by (rewrite ?length_fmap, ?length_seq; reflexivity).
rewrite Base64Facts.b64decode_b64encode. simpl.
split; [reflexivity|]. simpl. rewrite !lookup_insert_eq.
split; [reflexivity|]. split; [reflexivity|].
rewrite fernet_decrypt_encrypt by (rewrite ?length_fmap, ?length_seq; reflexivity).
split; [reflexivity|].
rewrite Base64Facts.b64decode_b64encode. simpl.
split; [reflexivity|]. apply lookup_insert_eq.
Qed.

End ObscurerMore.

Lemma obscure_twice_reveal_twice_witness :
  let data := list_byte_of_string "%PDF-1.7 patent A" in
  let st := machine PAT_init {[ "patentA.pdf" := data ]}
                    (service [] [] [] [] "queued" []) 0 in
  disk st !! "patentA.pdf" = Some data /\
  exists st1 st2 st3 st4 token,
    @encrypt_file stand_in_cipher "patentA.pdf" st = (Ok tt, st1) /\
    @encrypt_file stand_in_cipher "patentA.pdf" st1 = (Ok tt, st2) /\
    @decrypt_file stand_in_cipher "patentA.pdf" st2 = (Ok tt, st3) /\
    disk st3 !! "patentA.pdf" = Some token /\
    disk st1 !! "patentA.pdf" = Some token /\
    @fernet_decrypt stand_in_cipher token = Some (Base64.b64encode data) /\
    @decrypt_file stand_in_cipher "patentA.pdf" st3 = (Ok tt, st4) /\
    disk st4 !! "patentA.pdf" = Some data.
Proof.
intros data st.
assert (H : disk st !! "patentA.pdf" = Some data) by (vm_compute; reflexivity).
split; [exact H|].
exact (@obscure_twice_reveal_twice stand_in_cipher st "patentA.pdf" data H).
Defined.

(** ** More on uploading *)

Section UploadMore.

Context {cipher : Fernet}.

Ltac file_step :=
  unfold encrypt_file, decrypt_file, cipher_encrypt, cipher_decrypt, files_create,
    read_file, write_file, time_now, os_urandom, append_patent_file, files_list,
    record, modify, bind, ret, gets, raise; simpl.

Lemma bind_run {A B} (m : M A) (k : A -> M B) (st : state) :
  bind m k st
  = match m st with
    | (Ok a, st') => k a st'
    | (Raise e, st') => (Raise e, st')
    | (Waiting, st') => (Waiting, st')
    end.
Proof. reflexivity. Qed.


(** X17. When the loop arrives at a tracked file, at any place in the list,
    that the catalog does not hold and that decrypts well, and the upload
    itself fails, the call ends there with the file left in plain bytes on
    disk: it was decrypted and is not encrypted again; no id is recorded
    for it, so that the ids are those of the paths before it, and the
    paths after it are not looked at. *)
Theorem upload_files_failed_upload_leaves_plaintext
    (st reached : state) (i : nat) (path : string) (token text data : list byte) :
  patent_file_names (self st) !! i = Some path ->
  find (fun f => String.eqb (filename f) (basename path)) (catalog (remote st)) = None ->
  upload_files_upto i st = (Ok tt, reached) ->
  disk reached !! path = Some token ->
  fernet_decrypt token = Some text ->
  Base64.b64decode text = Some data ->
  take_file_id (remote reached) = None ->
  exists st',
    upload_files st = (Raise APIError, st') /\
    disk st' = <[path := data]> (disk reached) /\
    journal st' = journal reached ++ [DecryptFile path; FilesCreate path data] /\
    patent_files (self st') = patent_files (self reached) /\
    length (patent_files (self reached))
    = (length (patent_files (self st)) + i)%nat.
Proof.
intros Hi Hnew Hupto Hfile Htoken Htext Hid.
assert (Hlt : (i < length (patent_file_names (self st)))%nat)
  by (apply lookup_lt_is_Some; eauto).
unfold upload_files_upto, files_list, record, modify, bind at 1 2 3, gets in Hupto.
simpl in Hupto.
unfold upload_files, files_list, record, modify, bind at 1 2 3, gets. simpl.
replace (for_each (patent_file_names (self st)))
  with (for_each (take i (patent_file_names (self st))
                  ++ path :: drop (S i) (patent_file_names (self st))))
  by (now rewrite take_drop_middle).
rewrite for_each_app, bind_run, Hupto. cbv iota beta.
apply for_each_files in Hupto as (ids & Hids & Hlen & _).
rewrite length_take in Hlen.
cbn [for_each]. unfold upload_one. rewrite Hnew.
unfold bind at 1.
assert (Hd : decrypt_file path reached
             = (Ok tt, with_disk (fun d => <[path := data]> d)
                         (with_journal (fun j => j ++ [DecryptFile path]) reached))).
{ file_step. rewrite Hfile. simpl. rewrite Htoken. simpl. now rewrite Htext. }
rewrite bind_run, Hd. cbv iota beta. rewrite bind_run.
assert (Hc : forall s, disk s !! path = Some data -> take_file_id (remote s) = None ->
             files_create path s
             = (Raise APIError,
                with_journal (fun j => j ++ [FilesCreate path data]) s)).
{ intros s Hs Ht. file_step. rewrite Hs. simpl. now rewrite Ht. }
rewrite Hc by (simpl; (apply lookup_insert_eq || exact Hid)).
eexists. split; [reflexivity|]. simpl.
split; [reflexivity|]. split; [now rewrite <- !app_assoc|].
split; [reflexivity|].
rewrite Hids, length_app. simpl. lia.
Qed.


Lemma for_each_names (existing : list file_object) (names : list string) :
  forall st st',
    for_each names (upload_one existing) st = (Ok tt, st') ->
    patent_file_names (self st') = patent_file_names (self st).
Proof.
induction names as [|q names IH]; intros st st'.
- now intros [= <-].
- cbn [for_each]. unfold bind.
  destruct (upload_one existing q st) as [[[]| |] s1] eqn:E1; try discriminate.
  intros Hrest. apply upload_one_files in E1 as (Hn & _).
  rewrite (IH _ _ Hrest). exact Hn.
Qed.

(** X19. When [upload_files] returns, it has recorded exactly one remote id for
    each tracked path, after the ids it held, and the tracked paths are as
    before: calling it again records every file a second time. *)
Theorem upload_files_one_id_per_path (st st' : state) :
  upload_files st = (Ok tt, st') ->
  patent_file_names (self st') = patent_file_names (self st) /\
  exists ids,
    patent_files (self st') = patent_files (self st) ++ ids /\
    length ids = length (patent_file_names (self st)).
Proof.
unfold upload_files, files_list, record, modify, bind at 1 2 3, gets. simpl.
match goal with
| |- context [for_each ?names ?body ?s] =>
    destruct (for_each names body s) as [[[]| |] s1] eqn:E
end; try discriminate.
intros [= <-].
pose proof (for_each_names _ _ _ _ E) as Hn.
apply for_each_files in E as (ids & Hids & Hlen & _).
split; [exact Hn|]. exists ids. split; [exact Hids | exact Hlen].
Qed.

End UploadMore.


Lemma upload_files_failed_upload_leaves_plaintext_witness :
  let data := list_byte_of_string "%PDF-1.7 patent B" in
  let text := Base64.b64encode data in
  let token := stand_in_encrypt 0 (repeat "*"%byte 16) text in
  let known := mkFile "file-9" "patentA.pdf" in
  let st := machine (mkPAT (PyInt 7731) None ["patentA.pdf"; "patentB.pdf"] [])
                    {[ "patentB.pdf" := token ]}
                    (service [known] [] [] [] "queued" []) 0 in
  let reached := snd (@upload_files_upto stand_in_cipher 1 st) in
  patent_file_names (self st) !! 1%nat = Some "patentB.pdf" /\
  @upload_files_upto stand_in_cipher 1 st = (Ok tt, reached) /\
  disk reached !! "patentB.pdf" = Some token /\
  take_file_id (remote reached) = None /\
  journal reached = [FilesList] /\
  patent_files (self reached) = ["file-9"] /\
  exists st',
    @upload_files stand_in_cipher st = (Raise APIError, st') /\
    disk st' = <["patentB.pdf" := data]> (disk reached) /\
    journal st' = journal reached ++ [DecryptFile "patentB.pdf";
                                      FilesCreate "patentB.pdf" data] /\
    patent_files (self st') = patent_files (self reached) /\
    length (patent_files (self reached))
    = (length (patent_files (self st)) + 1)%nat.
Proof.
intros data text token known st reached.
assert (H1 : patent_file_names (self st) !! 1%nat = Some "patentB.pdf")
  by reflexivity.
assert (H2 : @upload_files_upto stand_in_cipher 1 st = (Ok tt, reached))
  by (vm_compute; reflexivity).
assert (H3 : disk reached !! "patentB.pdf" = Some token) by (vm_compute; reflexivity).
assert (H4 : @fernet_decrypt stand_in_cipher token = Some text)
  by (vm_compute; reflexivity).
assert (H5 : Base64.b64decode text = Some data) by (vm_compute; reflexivity).
assert (H6 : take_file_id (remote reached) = None) by (vm_compute; reflexivity).
split; [exact H1|]. split; [exact H2|]. split; [exact H3|]. split; [exact H6|].
split; [vm_compute; reflexivity|]. split; [vm_compute; reflexivity|].
exact (@upload_files_failed_upload_leaves_plaintext stand_in_cipher st reached 1
         "patentB.pdf" token text data H1 eq_refl H2 H3 H4 H5 H6).
Defined.


Lemma upload_files_one_id_per_path_witness :
  let known := mkFile "file-9" "patentA.pdf" in
  let token :=
    stand_in_encrypt 0 (repeat "*"%byte 16)
      (Base64.b64encode (list_byte_of_string "%PDF-1.7 patent B")) in
  let st :=
    machine (mkPAT (PyInt 7731) None ["docs/patentA.pdf"; "docs/patentB.pdf"]
                   ["file-0"])
            {[ "docs/patentB.pdf" := token ]}
            (service [known] ["file-10"] [] [] "queued" []) 0 in
  let st' := snd (@upload_files stand_in_cipher st) in
  @upload_files stand_in_cipher st = (Ok tt, st') /\
  patent_files (self st') = ["file-0"; "file-9"; "file-10"] /\
  patent_file_names (self st') = patent_file_names (self st) /\
  exists ids,
    patent_files (self st') = patent_files (self st) ++ ids /\
    length ids = length (patent_file_names (self st)).
Proof.
intros known token st st'.
assert (H : @upload_files stand_in_cipher st = (Ok tt, st'))
  by (vm_compute; reflexivity).
split; [exact H|]. split; [vm_compute; reflexivity|].
exact (@upload_files_one_id_per_path stand_in_cipher st st' H).
Defined.

(** ** The assistant *)

Section Assistant.

Lemma first_pat_found (before after : list assistant_object) (i : string) :
  Forall (fun a => assistant_name a <> "PAT") before ->
  first_pat (before ++ mkAssistant i "PAT" :: after) = Some i.
Proof.
intros Hbefore. unfold first_pat.
induction Hbefore as [|a before Ha _ IH]; simpl; [reflexivity|].
apply String.eqb_neq in Ha. now rewrite Ha.
Qed.

(** X20. Of the assistants named "PAT" only the first listed is deleted,
    however many follow it; the new assistant is then created with the
    remote ids tracked at that moment, and its id becomes the session's
    assistant, the other fields staying as they are. *)
Theorem create_assistant_replaces_first_pat
    (svc : assistants_service) (p : PAT)
    (before after : list assistant_object) (i new_id : string) :
  listed svc = Some (before ++ mkAssistant i "PAT" :: after) ->
  Forall (fun a => assistant_name a <> "PAT") before ->
  i <> "" ->
  deletion_works svc = true ->
  created svc = Some new_id ->
  create_assistant svc p
  = (Ok tt, mkPAT (chat_id p) (Some new_id) (patent_file_names p) (patent_files p),
     [ ListAssistants; DeleteAssistant i;
       CreateAssistant "PAT" pat_instructions "gpt-3.5-turbo-0125" ["retrieval"]
                       (patent_files p) ]).
Proof.
intros Hlist Hbefore Hi Hdel Hnew.
unfold create_assistant. rewrite Hlist, (first_pat_found _ _ _ Hbefore), Hdel, Hnew.
destruct i; [congruence | reflexivity].
Qed.

(** X21. When no listed assistant is named "PAT", nothing is deleted: the
    calls are the listing and the creation. *)
Theorem create_assistant_without_pat
    (svc : assistants_service) (p : PAT)
    (assistants : list assistant_object) (new_id : string) :
  listed svc = Some assistants ->
  Forall (fun a => assistant_name a <> "PAT") assistants ->
  created svc = Some new_id ->
  create_assistant svc p
  = (Ok tt, set_assistant_field (Some new_id) p, [ListAssistants; create_call p]).
Proof.
intros Hlist Hnone Hnew.
assert (Hfirst : first_pat assistants = None).
{ clear Hlist. unfold first_pat. induction Hnone as [|a l Ha _ IH]; [reflexivity|].
  cbn [find]. apply String.eqb_neq in Ha. rewrite Ha. exact IH. }
unfold create_assistant. rewrite Hlist, Hfirst, Hnew. reflexivity.
Qed.

(** X22. Deleting and creating are two calls: when the creation fails after
    the deletion went through, the old assistant is gone and the session
    still holds whatever assistant it held; so does it on every failure. *)
Theorem create_assistant_failure_keeps_field
    (svc : assistants_service) (p p' : PAT) (e : exn) (calls : list assistant_call) :
  create_assistant svc p = (Raise e, p', calls) ->
  p' = p /\ e = APIError /\
  (forall i, DeleteAssistant i ∈ calls -> deletion_works svc = true ->
             created svc = None /\ create_call p ∈ calls).
Proof.
assert (Hin3 : forall (a b c : assistant_call), c ∈ [a; b; c]).
{ intros a b c. apply elem_of_cons. right. apply elem_of_cons. right.
  apply elem_of_cons. now left. }
assert (Hin2 : forall (a b : assistant_call), b ∈ [a; b]).
{ intros a b. apply elem_of_cons. right. apply elem_of_cons. now left. }
unfold create_assistant.
destruct (listed svc) as [assistants|].
- destruct (truthy (first_pat assistants)) eqn:Ht; simpl.
  + destruct (deletion_works svc) eqn:Hd; simpl.
    * destruct (created svc) as [new_id|]; [discriminate|].
      intros [= <- <- <-]. split; [reflexivity|]. split; [reflexivity|].
      intros i _ _. split; [reflexivity | apply Hin3].
    * intros [= <- <- <-]. split; [reflexivity|]. split; [reflexivity|].
      intros i _ H. discriminate H.
  + destruct (created svc) as [new_id|]; [discriminate|].
    intros [= <- <- <-]. split; [reflexivity|]. split; [reflexivity|].
    intros i _ _. split; [reflexivity | apply Hin2].
- intros [= <- <- <-]. split; [reflexivity|]. split; [reflexivity|].
  intros i Hin. apply elem_of_cons in Hin as [Hin|Hin]; [discriminate|].
  now apply elem_of_nil in Hin.
Qed.

End Assistant.

Lemma create_assistant_replaces_first_pat_witness :
  let p := mkPAT (PyInt 7731) (Some "asst_1") ["a.pdf"] ["file-1"] in
  let listing := [mkAssistant "asst_0" "Helper"; mkAssistant "asst_1" "PAT";
                  mkAssistant "asst_2" "PAT"] in
  let svc := mkAssistants (Some listing) true (Some "asst_3") in
  listed svc = Some ([mkAssistant "asst_0" "Helper"]
                     ++ mkAssistant "asst_1" "PAT" :: [mkAssistant "asst_2" "PAT"]) /\
  Forall (fun a => assistant_name a <> "PAT") [mkAssistant "asst_0" "Helper"] /\
  "asst_1" <> "" /\
  create_assistant svc p
  = (Ok tt, mkPAT (chat_id p) (Some "asst_3") (patent_file_names p) (patent_files p),
     [ ListAssistants; DeleteAssistant "asst_1";
       CreateAssistant "PAT" pat_instructions "gpt-3.5-turbo-0125" ["retrieval"]
                       (patent_files p) ]).
Proof.
intros p listing svc.
assert (H1 : listed svc
             = Some ([mkAssistant "asst_0" "Helper"]
                     ++ mkAssistant "asst_1" "PAT" :: [mkAssistant "asst_2" "PAT"]))
  by reflexivity.
assert (H2 : Forall (fun a => assistant_name a <> "PAT")
                    [mkAssistant "asst_0" "Helper"]).
{ constructor; [discriminate | constructor]. }
assert (H3 : "asst_1" <> "") by discriminate.
split; [exact H1|]. split; [exact H2|]. split; [exact H3|].
exact (create_assistant_replaces_first_pat svc p _ _ "asst_1" "asst_3"
         H1 H2 H3 eq_refl eq_refl).
Defined.

Lemma create_assistant_without_pat_witness :
  let p := mkPAT (PyInt 7731) None ["a.pdf"] [] in
  let svc := mkAssistants (Some [mkAssistant "asst_0" "Helper"]) false
                          (Some "asst_1") in
  listed svc = Some [mkAssistant "asst_0" "Helper"] /\
  Forall (fun a => assistant_name a <> "PAT") [mkAssistant "asst_0" "Helper"] /\
  created svc = Some "asst_1" /\
  create_assistant svc p
  = (Ok tt, set_assistant_field (Some "asst_1") p, [ListAssistants; create_call p]).
Proof.
intros p svc.
assert (H1 : listed svc = Some [mkAssistant "asst_0" "Helper"]) by reflexivity.
assert (H2 : Forall (fun a => assistant_name a <> "PAT")
                    [mkAssistant "asst_0" "Helper"]).
{ constructor; [discriminate | constructor]. }
assert (H3 : created svc = Some "asst_1") by reflexivity.
split; [exact H1|]. split; [exact H2|]. split; [exact H3|].
exact (create_assistant_without_pat svc p _ "asst_1" H1 H2 H3).
Defined.

Lemma create_assistant_failure_keeps_field_witness :
  let p := mkPAT (PyInt 7731) (Some "asst_1") ["a.pdf"] ["file-1"] in
  let svc := mkAssistants (Some [mkAssistant "asst_1" "PAT"]) true None in
  let calls := [ListAssistants; DeleteAssistant "asst_1"; create_call p] in
  create_assistant svc p = (Raise APIError, p, calls) /\
  (p = p /\ APIError = APIError /\
   (forall i, DeleteAssistant i ∈ calls -> deletion_works svc = true ->
              created svc = None /\ create_call p ∈ calls)).
Proof.
intros p svc calls.
assert (H : create_assistant svc p = (Raise APIError, p, calls)) by reflexivity.
split; [exact H|].
exact (create_assistant_failure_keeps_field svc p p APIError calls H).
Defined.
